(** * toko-warga: the checkout transaction of [POST /api/orders]

  A shallow embedding of the order checkout handler of [src/index.js]
  (both revisions of the file that the repository carries) over the
  tables of [src/db/schema.js], and the properties of the checkout
  engine stated over it.

  - [Js]       the JavaScript numbers, their text, and the few coercions
               the handler uses
  - [User] .. [OrderItem]  the rows of the five tables
  - [Db]       the store, the statements the handlers issue, their effect
  - [Tx]       transaction bodies as programs over statements, and
               [db.transaction] with commit and rollback
  - [Checkout] the handler itself, in its two revisions, and the
               vocabulary of its properties
  - [Concurrent]  two or more requests whose transactions overlap
  - [Shop]     a store with two products to run requests against
  - [Text], [Lib], [Route], [Auth], [Catalog], [Seed]  the other routes
               of src/index.js (login, register, the middleware, the
               product upload and listing) and src/db/seed.js
  - [NumberFacts], [TxFacts], [CheckoutFacts], [ConcurrentFacts]  lemmas, then the
               properties of the checkout, then those of the other
               routes *)

From Stdlib Require Import ZArith List Lia Ascii.
From Stdlib Require Import Floats.SpecFloat.
From stdpp Require Import base option gmap strings sorting pretty.

Open Scope Z_scope.

(* ===================================================================== *)
(** ** JavaScript numbers *)
(* ===================================================================== *)

Module Js.

(** A JavaScript number is an IEEE 754 binary64 value. *)
Definition number : Type := spec_float.

Definition prec : Z := 53.
Definition emax : Z := 1024.

Definition NaN : number := S754_nan.
(** The literal [0]. *)
Definition zero : number := S754_zero false.

(** An integer of a JSON body or of an integer column, as a number:
    the nearest binary64 value. *)
Definition of_Z (z : Z) : number := binary_normalize prec emax z 0 false.

Definition add (x y : number) : number := SFadd prec emax x y.
Definition mul (x y : number) : number := SFmul prec emax x y.
Definition div (x y : number) : number := SFdiv prec emax x y.

(** A value of a [numeric(12,2)] column: a decimal with two fractional
    digits, here in cents, or one of the special values of the store's
    numeric type. The driver hands it to JavaScript as text ("10.00",
    "NaN", "Infinity"). *)
Inductive numeric : Type :=
| Cents (c : Z)
| NumericNaN
| NumericInfinity (negative : bool).

(** The values [parseFloat] is applied to in the handler. *)
Inductive value : Type :=
| Undefined
| Text (n : numeric).

(** [s.price] where [s] is the text of a numeric column: a string has
    no such property. *)
Definition get_price (s : numeric) : value := Undefined.

(** [parseFloat]: NaN on undefined; on the decimal text of [c] cents the
    correctly rounded quotient [c / 100]. [c] has at most 12 digits, so
    [of_Z c] and [of_Z 100] are exact and the rounded division is the
    nearest binary64 value of the decimal. *)
Definition parseFloat (v : value) : number :=
  match v with
  | Undefined => NaN
  | Text NumericNaN => NaN
  | Text (NumericInfinity negative) => S754_infinity negative
  | Text (Cents c) => div (of_Z c) (of_Z 100)
  end.

(** *** The text of a number

    [x.toString()] is read by one reader only, the store, which takes
    the text for the decimal it spells. The text is given here by that
    decimal: "0.30000000000000004" is [TextDecimal 30000000000000004 (-17)],
    "1e+21" is [TextDecimal 1 21], "-12.5" is [TextDecimal (-125) (-1)]. *)
Inductive number_text : Type :=
| TextNaN
| TextInfinity (negative : bool)
| TextDecimal (s q : Z)   (* s * 10^q *).

(** The number value of the decimal [s * 10^q], [0 < s]: the nearest
    binary64 value, ties to even. *)
Definition of_decimal (s q : Z) : number :=
  if 0 <=? q then binary_normalize prec emax (s * 10 ^ q) 0 false
  else div (S754_finite false (Z.to_pos s) 0)
           (S754_finite false (Z.to_pos (10 ^ (- q))) 0).

(** [floor (log10 (num / den))] for positive [num] and [den], counted up
    from 0 as long as [10^(D+1) <= num / den], or down from -1 until
    [10^D <= num / den]; [p] is [10^D] on the way up and [10^(-D)] on
    the way down. A binary64 value lies between [10^(-324)] and
    [10^309]. *)
Fixpoint magnitude_up (fuel : nat) (D p num den : Z) : Z :=
  match fuel with
  | O => D
  | S fuel =>
      if 10 * p * den <=? num then magnitude_up fuel (D + 1) (10 * p) num den else D
  end.

Fixpoint magnitude_down (fuel : nat) (D p num den : Z) : Z :=
  match fuel with
  | O => D
  | S fuel =>
      if den <=? num * p then D else magnitude_down fuel (D - 1) (10 * p) num den
  end.

Definition magnitude (m e : Z) : Z :=
  let num := m * 2 ^ Z.max e 0 in
  let den := 2 ^ Z.max (- e) 0 in
  if den <=? num then magnitude_up 309 0 1 num den
  else magnitude_down 324 (-1) 10 num den.

(** [floor (m * 2^e / 10^q)], and how the rest compares with one half. *)
Definition scaled (m e q : Z) : Z * comparison :=
  let num := m * 2 ^ Z.max e 0 * 10 ^ Z.max (- q) 0 in
  let den := 2 ^ Z.max (- e) 0 * 10 ^ Z.max q 0 in
  (num / den, 2 * (num mod den) ?= den).

(** The decimal of [k] digits that stands for [x = m * 2^e], if there
    is one; [D] is the magnitude of [x]. The decimals [s * 10^q] of [k]
    digits next to [x] are the one below it, [lo], and the one above,
    [lo + 1]; the text is one whose number value is [x], the closer one
    if both are, the even one if they are as close. *)
Definition digits_of (x : number) (m e D k : Z) : option (Z * Z) :=
  let q := D - k + 1 in
  let '(lo, rest) := scaled m e q in
  let hi := lo + 1 in
  let ok_lo := SFeqb (of_decimal lo q) x in
  let ok_hi := SFeqb (of_decimal hi q) x in
  let up := match rest with Lt => false | Gt => true | Eq => Z.odd lo end in
  let s := if ok_lo && ok_hi then Some (if up then hi else lo)
           else if ok_lo then Some lo
           else if ok_hi then Some hi
           else None in
  match s with
  | Some s => Some (if s =? 10 ^ k then (10 ^ (k - 1), q + 1) else (s, q))
  | None => None
  end.

(** The decimal with the fewest digits, from [k] digits on. Seventeen
    digits tell any two binary64 values apart. *)
Fixpoint shortest (fuel : nat) (x : number) (m e D k : Z) : Z * Z :=
  match fuel with
  | O => (fst (scaled m e (D - k + 1)), D - k + 1)
  | S fuel =>
      match digits_of x m e D k with
      | Some r => r
      | None => shortest fuel x m e D (k + 1)
      end
  end.

(** [x.toString()], that is [Number::toString(x, 10)]: "NaN"; "0" for
    both zeros; a minus sign and the text of [-x] for [x < 0];
    "Infinity"; and else the digits [s] and the exponent [n - k] with
    [k >= 1], [10^(k-1) <= s < 10^k], the number value of
    [s * 10^(n-k)] being [x], and [k] as small as possible. *)
Definition toString (x : number) : number_text :=
  match x with
  | S754_nan => TextNaN
  | S754_zero _ => TextDecimal 0 0
  | S754_infinity negative => TextInfinity negative
  | S754_finite negative m e =>
      let '(s, q) := shortest 17 (S754_finite false m e) (Zpos m) e
                              (magnitude (Zpos m) e) 1 in
      TextDecimal (if negative then - s else s) q
  end.
Arguments toString : simpl never.

End Js.

(* ===================================================================== *)
(** ** The schema: src/db/schema.js *)
(* ===================================================================== *)

Module User.
Record row : Type := mk {
  id : Z;
  username : string;
  password : string;
  role : option string
}.
End User.

Module Category.
Record row : Type := mk {
  id : Z;
  name : string
}.
End Category.

Module Product.
Record row : Type := mk {
  id : Z;
  name : string;
  description : option string;
  price : Js.numeric;
  stock : Z;
  imageUrl : option string;
  categoryId : option Z
}.

(** [.set({ stock: s })] on a row. *)
Definition set_stock (s : Z) (p : row) : row :=
  mk (id p) (name p) (description p) (price p) s (imageUrl p) (categoryId p).
End Product.

Module Order.
Record row : Type := mk {
  id : Z;
  customerName : string;
  address : string;
  totalAmount : Js.numeric;
  status : option string;
  createdAt : option Z
}.

Definition set_totalAmount (t : Js.numeric) (o : row) : row :=
  mk (id o) (customerName o) (address o) t (status o) (createdAt o).
End Order.

Module OrderItem.
Record row : Type := mk {
  id : Z;
  orderId : Z;
  productId : Z;
  quantity : Z;
  priceAtTime : Js.numeric
}.
End OrderItem.

(* ===================================================================== *)
(** ** The store *)
(* ===================================================================== *)

Module Db.

(** The five tables, each keyed by its [serial] primary key. *)
Record tables : Type := mkTables {
  users : gmap Z User.row;
  categories : gmap Z Category.row;
  products : gmap Z Product.row;
  orders : gmap Z Order.row;
  orderItems : gmap Z OrderItem.row
}.

(** The last value handed out by the sequence behind each [serial]
    column. Sequences are not transactional: a rollback does not give
    a value back. *)
Record sequences : Type := mkSequences {
  users_id_seq : Z;
  categories_id_seq : Z;
  products_id_seq : Z;
  orders_id_seq : Z;
  order_items_id_seq : Z
}.

Record store : Type := mkStore {
  rows : tables;
  seqs : sequences;
  (** the value of [now()] for [defaultNow()] *)
  clock : Z
}.

Inductive table : Type := Users | Categories | Products | Orders | OrderItems.

(** The statements that the handlers of [src/index.js] and the seed
    script send through the [db] / [tx] handle, indexed by what they
    return. *)
Inductive stmt : Type -> Type :=
(* db.query.users.findFirst({ where: eq(users.username, u) }) *)
| FindFirstUser (username : string) : stmt (option User.row)
(* db.insert(users).values({ username, password, role }) *)
| InsertUser (username password : string) (role : string) : stmt unit
(* db.insert(categories).values({ name }) *)
| InsertCategory (name : string) : stmt unit
(* db.insert(products).values({ ... }) *)
| InsertProduct (name : string) (description : option string)
    (price : Js.numeric) (stock : Z) (categoryId : option Z)
    (imageUrl : option string) : stmt unit
(* db.select().from(products).orderBy(desc(products.id)) *)
| SelectProducts : stmt (list Product.row)
(* tx.insert(orders).values({ ... }).returning() *)
| InsertOrder (customerName address : string) (totalAmount : Js.number_text)
    (status : string) : stmt Order.row
(* tx.query.products.findFirst({ where: eq(products.id, id) }) *)
| FindFirstProduct (id : Z) : stmt (option Product.row)
(* tx.insert(orderItems).values({ ... }) *)
| InsertOrderItem (orderId productId quantity : Z)
    (priceAtTime : Js.numeric) : stmt unit
(* tx.update(products).set({ stock }).where(eq(products.id, id)) *)
| UpdateProductStock (id : Z) (stock : Z) : stmt unit
(* tx.update(orders).set({ totalAmount }).where(eq(orders.id, id)) *)
| UpdateOrderTotalAmount (id : Z) (totalAmount : Js.number_text) : stmt unit.

Definition stmt_table {R} (s : stmt R) : table :=
  match s with
  | FindFirstUser _ | InsertUser _ _ _ => Users
  | InsertCategory _ => Categories
  | InsertProduct _ _ _ _ _ _ | SelectProducts
  | FindFirstProduct _ | UpdateProductStock _ _ => Products
  | InsertOrder _ _ _ _ | UpdateOrderTotalAmount _ _ => Orders
  | InsertOrderItem _ _ _ _ => OrderItems
  end.

(** Row-level effects of a statement. *)
Inductive write : Type :=
| PutUser (u : User.row)
| PutCategory (c : Category.row)
| PutProduct (p : Product.row)
| PutOrder (o : Order.row)
| PutOrderItem (i : OrderItem.row)
| SetProductStock (id stock : Z)
| SetOrderTotalAmount (id : Z) (totalAmount : Js.numeric).

Definition apply_write (w : write) (t : tables) : tables :=
  match w with
  | PutUser u =>
      mkTables (<[User.id u := u]> (users t)) (categories t) (products t)
               (orders t) (orderItems t)
  | PutCategory c =>
      mkTables (users t) (<[Category.id c := c]> (categories t)) (products t)
               (orders t) (orderItems t)
  | PutProduct p =>
      mkTables (users t) (categories t) (<[Product.id p := p]> (products t))
               (orders t) (orderItems t)
  | PutOrder o =>
      mkTables (users t) (categories t) (products t)
               (<[Order.id o := o]> (orders t)) (orderItems t)
  | PutOrderItem i =>
      mkTables (users t) (categories t) (products t) (orders t)
               (<[OrderItem.id i := i]> (orderItems t))
  | SetProductStock id s =>
      mkTables (users t) (categories t)
               (alter (Product.set_stock s) id (products t))
               (orders t) (orderItems t)
  | SetOrderTotalAmount id a =>
      mkTables (users t) (categories t) (products t)
               (alter (Order.set_totalAmount a) id (orders t)) (orderItems t)
  end.

Definition apply_writes (ws : list write) (t : tables) : tables :=
  fold_left (fun t w => apply_write w t) ws t.

(** The outcome of one statement: what it returns or the error it
    raises, the rows it writes, and the sequences afterwards. *)
Record outcome (R : Type) : Type := mkOutcome {
  returned : string + R;
  written : list write;
  seqs_after : sequences
}.
Arguments mkOutcome {R} _ _ _.
Arguments returned {R} _.
Arguments written {R} _.
Arguments seqs_after {R} _.

Definition duplicate_key : string := "duplicate key value violates unique constraint".

(** A text sent to a [numeric(12,2)] column. The store reads the decimal
    and rounds it to two fractional digits, ties away from zero; "NaN"
    is kept. That the value fits the twelve digits of the column is
    checked by the store afterwards; a value that does not fit (an
    infinite one never does) is among the statements the store refuses. *)
Definition numeric_12_2 (t : Js.number_text) : Js.numeric :=
  match t with
  | Js.TextNaN => Js.NumericNaN
  | Js.TextInfinity negative => Js.NumericInfinity negative
  | Js.TextDecimal s q =>
      let a := Z.abs s in
      Js.Cents (Z.sgn s * (if 0 <=? q + 2 then a * 10 ^ (q + 2)
                           else let d := 10 ^ (- (q + 2)) in (2 * a + d) / (2 * d)))
  end.
Arguments numeric_12_2 : simpl never.

(** An insert draws the next value of the sequence; the primary key
    rejects a value that is already taken. *)
Definition insert_row {Row R} (tbl : gmap Z Row) (id : Z) (w : write) (r : R)
    (sq : sequences) : outcome R :=
  match tbl !! id with
  | Some _ => mkOutcome (inl duplicate_key) [] sq
  | None => mkOutcome (inr r) [w] sq
  end.

Definition first_user (username : string) (us : gmap Z User.row) : option User.row :=
  head (filter (fun u => bool_decide (User.username u = username))
               (snd <$> map_to_list us)).

(** [orderBy(desc(products.id))] *)
Definition products_desc (ps : gmap Z Product.row) : list Product.row :=
  @merge_sort _ (fun p q => Product.id q <= Product.id p)
    (fun p q => Z.le_dec (Product.id q) (Product.id p))
    (snd <$> map_to_list ps).

Definition exec {R} (s : stmt R) (t : tables) (sq : sequences) (now : Z) : outcome R :=
  match s in stmt R return outcome R with
  | FindFirstUser u => mkOutcome (inr (first_user u (users t))) [] sq
  | InsertUser u p r =>
      let id := users_id_seq sq + 1 in
      insert_row (users t) id (PutUser (User.mk id u p (Some r))) tt
        (mkSequences id (categories_id_seq sq) (products_id_seq sq)
                     (orders_id_seq sq) (order_items_id_seq sq))
  | InsertCategory n =>
      let id := categories_id_seq sq + 1 in
      insert_row (categories t) id (PutCategory (Category.mk id n)) tt
        (mkSequences (users_id_seq sq) id (products_id_seq sq)
                     (orders_id_seq sq) (order_items_id_seq sq))
  | InsertProduct n d p s c i =>
      let id := products_id_seq sq + 1 in
      insert_row (products t) id (PutProduct (Product.mk id n d p s i c)) tt
        (mkSequences (users_id_seq sq) (categories_id_seq sq) id
                     (orders_id_seq sq) (order_items_id_seq sq))
  | SelectProducts => mkOutcome (inr (products_desc (products t))) [] sq
  | InsertOrder c a tot st =>
      let id := orders_id_seq sq + 1 in
      let o := Order.mk id c a (numeric_12_2 tot) (Some st) (Some now) in
      insert_row (orders t) id (PutOrder o) o
        (mkSequences (users_id_seq sq) (categories_id_seq sq) (products_id_seq sq)
                     id (order_items_id_seq sq))
  | FindFirstProduct id => mkOutcome (inr (products t !! id)) [] sq
  | InsertOrderItem o p q pr =>
      let id := order_items_id_seq sq + 1 in
      insert_row (orderItems t) id (PutOrderItem (OrderItem.mk id o p q pr)) tt
        (mkSequences (users_id_seq sq) (categories_id_seq sq) (products_id_seq sq)
                     (orders_id_seq sq) id)
  | UpdateProductStock id s => mkOutcome (inr tt) [SetProductStock id s] sq
  | UpdateOrderTotalAmount id a =>
      mkOutcome (inr tt) [SetOrderTotalAmount id (numeric_12_2 a)] sq
  end.

End Db.

(* ===================================================================== *)
(** ** Transactions *)
(* ===================================================================== *)

Module Tx.

(** The body of a [db.transaction(async (tx) => ...)] callback: it
    returns, throws, or awaits a statement and goes on with its result. *)
Inductive tx (A : Type) : Type :=
| Ret (a : A)
| Throw (message : string)
| Exec {R : Type} (s : Db.stmt R) (k : R -> tx A).
Arguments Ret {A} a.
Arguments Throw {A} message.
Arguments Exec {A R} s k.

Fixpoint bind {A B : Type} (t : tx A) (f : A -> tx B) : tx B :=
  match t with
  | Ret a => f a
  | Throw m => Throw m
  | Exec s k => Exec s (fun r => bind (k r) f)
  end.

Definition await {R : Type} (s : Db.stmt R) : tx R := Exec s Ret.

(** The store is an external collaborator: it may refuse any statement
    (a violated column constraint, a lost connection) and it may refuse
    the commit. Which ones it refuses is not decided by the handler; it
    is given here as a script, one entry per statement in the order they
    are issued, [Some m] meaning that the statement raises the error [m]
    and leaves the rows as they were. A script that runs out refuses
    nothing more. The sequences are left as they were too, where the
    store may have drawn an id for an insert that it then refuses: what
    is stated of a refused statement is stated of the rows. *)
Record faults : Type := mkFaults {
  on_statement : list (option string);
  on_commit : option string
}.

Definition no_faults : faults := mkFaults [] None.

(** The error the script holds for the next statement, if any. *)
Definition refused (fs : list (option string)) : option string :=
  match fs with
  | Some m :: _ => Some m
  | _ => None
  end.

(** A statement that was issued, and the rows as the transaction sees
    them right after it. *)
Inductive event : Type :=
| Issued {R : Type} (s : Db.stmt R) (after : Db.tables).

Definition event_table (e : event) : Db.table :=
  match e with Issued s _ => Db.stmt_table s end.

Definition event_after (e : event) : Db.tables :=
  match e with Issued _ t => t end.

(** A statement, whatever it returns. *)
Inductive statement : Type :=
| Statement {R : Type} (s : Db.stmt R).

Definition event_statement (e : event) : statement :=
  match e with Issued s _ => Statement s end.

Record result (A : Type) : Type := mkResult {
  value : string + A;
  final : Db.store;
  unused : list (option string);
  log : list event
}.
Arguments mkResult {A} _ _ _ _.
Arguments value {A} _.
Arguments final {A} _.
Arguments unused {A} _.
Arguments log {A} _.

Definition logged {A} (e : event) (r : result A) : result A :=
  mkResult (value r) (final r) (unused r) (e :: log r).

(** Runs a body statement by statement against the store. *)
Fixpoint run {A : Type} (t : tx A) (d : Db.store) (fs : list (option string))
    : result A :=
  match t with
  | Ret a => mkResult (inr a) d fs []
  | Throw m => mkResult (inl m) d fs []
  | Exec s k =>
      match fs with
      | Some m :: fs' => mkResult (inl m) d fs' [Issued s (Db.rows d)]
      | _ =>
          let o := Db.exec s (Db.rows d) (Db.seqs d) (Db.clock d) in
          let t' := Db.apply_writes (Db.written o) (Db.rows d) in
          let d' := Db.mkStore t' (Db.seqs_after o) (Db.clock d) in
          match Db.returned o with
          | inl m => mkResult (inl m) d' (tail fs) [Issued s t']
          | inr r => logged (Issued s t') (run (k r) d' (tail fs))
          end
      end
  end.

(** ROLLBACK: the rows are those from before the transaction; the
    sequences keep the values they reached. *)
Definition rollback (before now : Db.store) : Db.store :=
  Db.mkStore (Db.rows before) (Db.seqs now) (Db.clock before).

(** [db.transaction(body)]: runs the body; commits when it returns and
    gives its value back; rolls back and rethrows when it throws. *)
Definition transaction {A : Type} (body : tx A) (d : Db.store) (f : faults)
    : (string + A) * Db.store * list event :=
  let r := run body d (on_statement f) in
  match value r with
  | inr a =>
      match on_commit f with
      | None => (inr a, final r, log r)
      | Some m => (inl m, rollback d (final r), log r)
      end
  | inl m => (inl m, rollback d (final r), log r)
  end.

(** [issues P t]: every statement the body [t] can issue satisfies [P]. *)
Inductive issues {A : Type} (P : forall R, Db.stmt R -> Prop) : tx A -> Prop :=
| issues_Ret (a : A) : issues P (Ret a)
| issues_Throw (m : string) : issues P (Throw m)
| issues_Exec {R : Type} (s : Db.stmt R) (k : R -> tx A) :
    P R s -> (forall r, issues P (k r)) -> issues P (Exec s k).

Definition event_satisfies (P : forall R, Db.stmt R -> Prop) (e : event) : Prop :=
  match e with Issued s _ => P _ s end.

End Tx.

Declare Scope tx_scope.
Delimit Scope tx_scope with tx.
Notation "x <- t ;; k" := (Tx.bind t (fun x => k))
  (at level 100, t at next level, right associativity) : tx_scope.
Notation "t ;;; k" := (Tx.bind t (fun _ => k))
  (at level 100, right associativity) : tx_scope.

(* ===================================================================== *)
(** ** The checkout handler: POST /api/orders *)
(* ===================================================================== *)

Module Checkout.

Import Tx.

(** The two revisions of [src/index.js] that the repository carries. They
    differ in the text of the stock error and in the expression read for
    the price of an item. *)
Inductive revision : Type :=
| First     (* `Stok ${product?.name} kurang!`, parseFloat(product.price.price) *)
| Perbaikan (* `Stok ${product?.name || 'Produk'} tidak mencukupi!`, parseFloat(product.price) *).

(** One entry of [items]. The handler reads [productId] and [quantity];
    [price] stands for a price a client may send along. *)
Record item : Type := mkItem {
  productId : Z;
  quantity : Z;
  price : option Js.number
}.

(** The JSON body [{ customerName, address, items }]. *)
Record request : Type := mkRequest {
  customerName : string;
  address : string;
  items : list item
}.

Inductive response : Type :=
(* c.json({ success: true, orderId, total }) *)
| Json200 (orderId : Z) (total : Js.number)
(* c.json({ success: false, message: e.message }, 400) *)
| Json400 (message : string).

(** The message of the error thrown by the stock check. *)
Definition stock_message (v : revision) (product : option Product.row) : string :=
  match v with
  | First =>
      (* `Stok ${product?.name} kurang!` *)
      "Stok " +:+ match product with
                  | Some p => Product.name p
                  | None => "undefined"
                  end +:+ " kurang!"
  | Perbaikan =>
      (* `Stok ${product?.name || 'Produk'} tidak mencukupi!` *)
      "Stok " +:+ match product with
                  | Some p => if String.eqb (Product.name p) "" then "Produk"
                              else Product.name p
                  | None => "Produk"
                  end +:+ " tidak mencukupi!"
  end.

(** The price of one unit, as the revision reads it off the text [price]
    of the numeric column. *)
Definition unit_price (v : revision) (price : Js.numeric) : Js.number :=
  match v with
  | First => Js.parseFloat (Js.get_price price)     (* product.price.price *)
  | Perbaikan => Js.parseFloat (Js.Text price)      (* product.price *)
  end.

Definition item_price (v : revision) (product : Product.row) : Js.number :=
  unit_price v (Product.price product).

(** The body of the [for (const item of items)] loop; [total] is the
    accumulator, returned as updated. *)
Definition process_item (v : revision) (newOrder : Order.row) (it : item)
    (total : Js.number) : tx Js.number :=
  (product <- await (Db.FindFirstProduct (productId it));;
   match product with
   | None => Throw (stock_message v product)
   | Some p =>
       if Product.stock p <? quantity it then Throw (stock_message v product)
       else
         let total := Js.add total (Js.mul (item_price v p) (Js.of_Z (quantity it))) in
         (await (Db.InsertOrderItem (Order.id newOrder) (productId it)
                                    (quantity it) (Product.price p));;;
          await (Db.UpdateProductStock (productId it)
                                       (Product.stock p - quantity it));;;
          Ret total)
   end)%tx.

Fixpoint process_items (v : revision) (newOrder : Order.row) (its : list item)
    (total : Js.number) : tx Js.number :=
  match its with
  | [] => Ret total
  | it :: rest =>
      (total <- process_item v newOrder it total;;
       process_items v newOrder rest total)%tx
  end.

(** The callback given to [db.transaction]. *)
Definition checkout (v : revision) (req : request) : tx (Z * Js.number) :=
  (newOrder <- await (Db.InsertOrder (customerName req) (address req)
                                     (Js.TextDecimal 0 0) "pending");;
   total <- process_items v newOrder (items req) Js.zero;;
   await (Db.UpdateOrderTotalAmount (Order.id newOrder) (Js.toString total));;;
   Ret (Order.id newOrder, total))%tx.

(** What one call leaves behind: the response, the store, and the
    statements it issued. *)
Record served : Type := mkServed {
  answer : response;
  store_after : Db.store;
  issued : list event
}.

(** [app.post('/api/orders', ...)] *)
Definition post_api_orders (v : revision) (req : request) (d : Db.store)
    (f : faults) : served :=
  match transaction (checkout v req) d f with
  | (inr (orderId, total), d', l) => mkServed (Json200 orderId total) d' l
  | (inl message, d', l) => mkServed (Json400 message) d' l
  end.

(** *** Vocabulary of the properties *)

(** The store after the statements of one item have gone through. *)
Definition after_item (o : Order.row) (it : item) (p : Product.row) (d : Db.store)
    : Db.store :=
  let id := Db.order_items_id_seq (Db.seqs d) + 1 in
  Db.mkStore
    (Db.apply_writes
       [Db.PutOrderItem (OrderItem.mk id (Order.id o) (productId it) (quantity it)
                                      (Product.price p));
        Db.SetProductStock (productId it) (Product.stock p - quantity it)]
       (Db.rows d))
    (Db.mkSequences (Db.users_id_seq (Db.seqs d)) (Db.categories_id_seq (Db.seqs d))
                    (Db.products_id_seq (Db.seqs d)) (Db.orders_id_seq (Db.seqs d)) id)
    (Db.clock d).

Definition add_item (v : revision) (it : item) (p : Product.row) (total : Js.number)
    : Js.number :=
  Js.add total (Js.mul (item_price v p) (Js.of_Z (quantity it))).

(** The order header once its total is set. *)
Definition header (req : request) (id : Z) (total : Js.numeric) (now : Z) : Order.row :=
  Order.mk id (customerName req) (address req) total (Some "pending") (Some now).

(** The total as the column [total_amount] keeps it. *)
Definition stored_total (total : Js.number) : Js.numeric :=
  Db.numeric_12_2 (Js.toString total).

(** Every statement of the checkout, with the stock a stock update
    writes not below zero. *)
Definition guarded_stmt (R : Type) (s : Db.stmt R) : Prop :=
  match s with
  | Db.InsertOrder _ _ _ _ | Db.FindFirstProduct _ | Db.InsertOrderItem _ _ _ _
  | Db.UpdateOrderTotalAmount _ _ => True
  | Db.UpdateProductStock _ stock => 0 <= stock
  | _ => False
  end.

(** The statements of the checkout: the order header, the product
    lookup, the order line, the stock update, the total update. *)
Definition checkout_stmt (R : Type) (s : Db.stmt R) : Prop :=
  match s with
  | Db.InsertOrder _ _ _ _ | Db.FindFirstProduct _ | Db.InsertOrderItem _ _ _ _
  | Db.UpdateProductStock _ _ | Db.UpdateOrderTotalAmount _ _ => True
  | _ => False
  end.

(** The product lookups among the statements issued, in their order. *)
Definition lookup_of (e : event) : option Z :=
  match e with
  | Issued s _ =>
      match s with
      | Db.FindFirstProduct id => Some id
      | _ => None
      end
  end.

Definition lookups (l : list event) : list Z := omap lookup_of l.

(** The units of product [id] that the items ask for, all entries of
    that product added up. *)
Fixpoint ordered (id : Z) (its : list item) : Z :=
  match its with
  | [] => 0
  | it :: rest =>
      (if bool_decide (productId it = id) then quantity it else 0) + ordered id rest
  end.

(** The order lines of [its] for order [orderId], numbered from the
    sequence value [seq] on, each with the price its product has in [ps]. *)
Fixpoint new_lines (ps : gmap Z Product.row) (orderId seq : Z) (its : list item)
    : list OrderItem.row :=
  match its with
  | [] => []
  | it :: rest =>
      match ps !! productId it with
      | Some p =>
          OrderItem.mk (seq + 1) orderId (productId it) (quantity it) (Product.price p)
          :: new_lines ps orderId (seq + 1) rest
      | None => []
      end
  end.

Definition put_lines (ls : list OrderItem.row) (m : gmap Z OrderItem.row)
    : gmap Z OrderItem.row :=
  fold_left (fun m l => <[OrderItem.id l := l]> m) ls m.

(** [price_at_time * quantity] of the lines, added up in their order
    onto [acc], in the arithmetic of the revision. *)
Definition lines_total (v : revision) (ls : list OrderItem.row) (acc : Js.number)
    : Js.number :=
  fold_left (fun acc l =>
               Js.add acc (Js.mul (unit_price v (OrderItem.priceAtTime l))
                                  (Js.of_Z (OrderItem.quantity l))))
            ls acc.

(** The sum of [price_at_time * quantity] over the lines as the decimal
    it is, in cents; [None] when a price is no decimal. *)
Fixpoint lines_cents (ls : list OrderItem.row) : option Z :=
  match ls with
  | [] => Some 0
  | l :: rest =>
      match OrderItem.priceAtTime l, lines_cents rest with
      | Js.Cents c, Some sum => Some (c * OrderItem.quantity l + sum)
      | _, _ => None
      end
  end.

Definition stocks_nonneg (t : Db.tables) : Prop :=
  map_Forall (fun _ p => 0 <= Product.stock p) (Db.products t).

(** Two product rows that differ at most in [stock]. *)
Definition same_but_stock (p p' : Product.row) : Prop :=
  p' = Product.set_stock (Product.stock p') p.

(** The first item, in the caller's order, that does not get past its
    stock check once the items before it have taken their units: its
    product is missing or has fewer units left than it asks for. [None]
    when every item gets past. *)
Fixpoint first_short (ps : gmap Z Product.row) (its : list item) : option item :=
  match its with
  | [] => None
  | it :: rest =>
      match ps !! productId it with
      | None => Some it
      | Some p =>
          if Product.stock p <? quantity it then Some it
          else first_short
                 (alter (Product.set_stock (Product.stock p - quantity it))
                        (productId it) ps)
                 rest
      end
  end.

(** What a checkout leaves alone: the users, the categories, and every
    column of every product but [stock]; no product appears or goes. *)
Definition checkout_frame (t0 t : Db.tables) : Prop :=
  Db.users t = Db.users t0 /\
  Db.categories t = Db.categories t0 /\
  forall id, option_Forall2 same_but_stock (Db.products t0 !! id) (Db.products t !! id).

(** The sequences of the two tables the checkout inserts into are ahead
    of every key in use, as they are when every row got its key from
    its sequence. *)
Definition items_ahead (d : Db.store) : Prop :=
  forall id, Db.order_items_id_seq (Db.seqs d) < id ->
             Db.orderItems (Db.rows d) !! id = None.

Definition orders_ahead (d : Db.store) : Prop :=
  forall id, Db.orders_id_seq (Db.seqs d) < id -> Db.orders (Db.rows d) !! id = None.

Definition sequences_ahead (d : Db.store) : Prop := orders_ahead d /\ items_ahead d.

(** The answer to a request when the store refuses nothing: the stock
    error of the first item that falls short, or else the new order with
    its lines added up. *)
Definition undisturbed_answer (v : revision) (req : request) (d : Db.store) : response :=
  let oid := Db.orders_id_seq (Db.seqs d) + 1 in
  match first_short (Db.products (Db.rows d)) (items req) with
  | Some it => Json400 (stock_message v (Db.products (Db.rows d) !! productId it))
  | None =>
      Json200 oid
        (lines_total v
           (new_lines (Db.products (Db.rows d)) oid
                      (Db.order_items_id_seq (Db.seqs d)) (items req))
           Js.zero)
  end.

End Checkout.

(* ===================================================================== *)
(** ** Requests served at the same time *)
(* ===================================================================== *)

Module Concurrent.

Import Tx Checkout.

(** The handler is [async]: between two statements of one request the
    server may serve another. Each request runs its own transaction.
    [db.transaction] is called without options, so the transactions run
    under the default isolation of the store, read committed: every
    statement sees the committed rows and the rows its own transaction
    has written; an update or insert of a row that another open
    transaction has written waits until that transaction has ended. *)

(** One request: its transaction is open, with the rest of its body and
    the rows it has written so far, or it has been answered. *)
Inductive session : Type :=
| Open (rest : tx (Z * Js.number)) (own : list Db.write)
| Answered (a : response).

Record server : Type := mkServer {
  committed : Db.tables;
  seqs : Db.sequences;
  clock : Z;
  sessions : list session
}.

#[global] Instance table_eq_dec : EqDecision Db.table.
Proof. solve_decision. Defined.

(** The row a write locks. *)
Definition write_key (w : Db.write) : Db.table * Z :=
  match w with
  | Db.PutUser u => (Db.Users, User.id u)
  | Db.PutCategory c => (Db.Categories, Category.id c)
  | Db.PutProduct p => (Db.Products, Product.id p)
  | Db.PutOrder o => (Db.Orders, Order.id o)
  | Db.PutOrderItem i => (Db.OrderItems, OrderItem.id i)
  | Db.SetProductStock id _ => (Db.Products, id)
  | Db.SetOrderTotalAmount id _ => (Db.Orders, id)
  end.

Definition holds (k : Db.table * Z) (s : session) : bool :=
  match s with
  | Open _ own => existsb (fun w => bool_decide (write_key w = k)) own
  | Answered _ => false
  end.

(** Whether some session other than the [i]-th holds the lock of a row
    that [ws] writes. *)
Definition must_wait (i : nat) (ss : list session) (ws : list Db.write) : bool :=
  existsb (fun w => existsb (holds (write_key w)) (delete i ss)) ws.

(** The [i]-th session moves on by one step: its next statement, or the
    commit once its body has returned, or the rollback once it has
    thrown; the answer is sent with the end of the transaction. *)
Definition step (i : nat) (srv : server) : server :=
  match sessions srv !! i with
  | Some (Open (Ret (orderId, total)) own) =>
      mkServer (Db.apply_writes own (committed srv)) (seqs srv) (clock srv)
               (<[i := Answered (Json200 orderId total)]> (sessions srv))
  | Some (Open (Throw message) own) =>
      mkServer (committed srv) (seqs srv) (clock srv)
               (<[i := Answered (Json400 message)]> (sessions srv))
  | Some (Open (Exec s k) own) =>
      let o := Db.exec s (Db.apply_writes own (committed srv)) (seqs srv) (clock srv) in
      if must_wait i (sessions srv) (Db.written o) then srv
      else
        mkServer (committed srv) (Db.seqs_after o) (clock srv)
                 (<[i := match Db.returned o with
                         | inl message => Answered (Json400 message)
                         | inr r => Open (k r) (own ++ Db.written o)
                         end]> (sessions srv))
  | _ => srv
  end.

(** The sessions move in the order the schedule gives. *)
Definition serve (schedule : list nat) (srv : server) : server :=
  fold_left (fun srv i => step i srv) schedule srv.

(** The requests arrive: a transaction is opened for each. *)
Definition arrive (v : revision) (reqs : list request) (d : Db.store) : server :=
  mkServer (Db.rows d) (Db.seqs d) (Db.clock d)
           (map (fun req => Open (checkout v req) []) reqs).


(** The writes of guarded statements. *)
Definition guarded_write (w : Db.write) : Prop :=
  match w with
  | Db.PutOrder _ | Db.PutOrderItem _ | Db.SetOrderTotalAmount _ _ => True
  | Db.SetProductStock _ stock => 0 <= stock
  | _ => False
  end.

(** A session of a checkout: what it has written and what it may still
    issue is guarded. *)
Definition checkout_session (s : session) : Prop :=
  match s with
  | Open rest own => issues guarded_stmt rest /\ Forall guarded_write own
  | Answered _ => True
  end.

End Concurrent.

(* ===================================================================== *)
(** ** A small shop to run requests against *)
(* ===================================================================== *)

Module Shop.

Import Checkout.

Definition admin : User.row := User.mk 1 "admin" "$2a$10$hash" (Some "admin").

Definition makanan : Category.row := Category.mk 1 "Makanan".

(** Stock 5, price 10.00. *)
Definition beras : Product.row :=
  Product.mk 1 "Beras" None (Js.Cents 1000) 5 None (Some 1).

(** Stock 1, price 12.50. *)
Definition gula : Product.row :=
  Product.mk 2 "Gula" (Some "Gula pasir 1 kg") (Js.Cents 1250) 1 None (Some 1).

Definition shop : Db.store :=
  Db.mkStore
    (Db.mkTables {[1 := admin]} {[1 := makanan]} (<[1 := beras]> {[2 := gula]}) ∅ ∅)
    (Db.mkSequences 1 1 2 0 0)
    1700000000.

(** Stock 100, price 0.10. *)
Definition permen : Product.row :=
  Product.mk 3 "Permen" None (Js.Cents 10) 100 None (Some 1).

(** The shop with the sweets on the shelf as well. *)
Definition warung : Db.store :=
  Db.mkStore
    (Db.mkTables {[1 := admin]} {[1 := makanan]}
                 (<[1 := beras]> (<[2 := gula]> {[3 := permen]})) ∅ ∅)
    (Db.mkSequences 1 1 3 0 0)
    1700000000.

Definition buy (its : list (Z * Z)) : request :=
  mkRequest "Ani" "Jl. Melati 1" (map (fun '(id, q) => mkItem id q None) its).

End Shop.

(* ===================================================================== *)
(** ** The other routes of src/index.js and the seed script *)
(* ===================================================================== *)

(** Strings as the handlers take them apart. *)
Module Text.

(** [s.split(sep)] for a one-character separator: the pieces between the
    separators, empty pieces included; never an empty array. *)
Fixpoint split (sep : Ascii.ascii) (s : string) : list string :=
  match s with
  | EmptyString => [EmptyString]
  | String c rest =>
      if Ascii.eqb c sep then EmptyString :: split sep rest
      else match split sep rest with
           | w :: ws => String c w :: ws
           | [] => [String c EmptyString]
           end
  end.

(** A text of which the handler looks at the characters: its UTF-16
    code units. *)
Definition units (s : string) : list N :=
  map Ascii.N_of_ascii (String.list_ascii_of_string s).

(** The class [\s] of a regular expression, which is also the white
    space [parseInt] skips: WhiteSpace and LineTerminator. *)
Definition is_whitespace (c : N) : bool :=
  match c with
  | 9%N | 10%N | 11%N | 12%N | 13%N | 32%N | 160%N | 5760%N | 8232%N | 8233%N
  | 8239%N | 8287%N | 12288%N | 65279%N => true
  | _ => (8192 <=? c)%N && (c <=? 8202)%N
  end.

(** [name.replace(/\s/g, '_')] *)
Definition replace_whitespace (name : list N) : list N :=
  map (fun c => if is_whitespace c then 95%N else c) name.

Fixpoint trim_start (s : list N) : list N :=
  match s with
  | c :: rest => if is_whitespace c then trim_start rest else s
  | [] => []
  end.

(** The value of a digit in the radix, if it is one. *)
Definition digit_value (radix : Z) (c : N) : option Z :=
  let v := if (48 <=? c)%N && (c <=? 57)%N then Z.of_N c - 48
           else if (97 <=? c)%N && (c <=? 122)%N then Z.of_N c - 87
           else if (65 <=? c)%N && (c <=? 90)%N then Z.of_N c - 55
           else radix in
  if v <? radix then Some v else None.

(** The number the longest run of digits at the front stands for;
    [acc] is the number read so far, [None] before the first digit. *)
Fixpoint leading_digits (radix : Z) (s : list N) (acc : option Z) : option Z :=
  match s with
  | c :: rest =>
      match digit_value radix c with
      | Some v => leading_digits radix rest (Some (radix * default 0 acc + v))
      | None => acc
      end
  | [] => acc
  end.

(** [parseInt(s)] without a radix; [None] is NaN. White space at the
    front is skipped, then a sign, then [0x] or [0X] selects radix 16;
    what follows the digits is ignored. The result given here is the
    integer that the digits stand for; the number [parseInt] returns is
    the binary64 value nearest to it, the same integer when it is within
    [2^53] of zero. The handler sends it to an integer column: the
    store refuses what does not fit 32 bits, so an integer that is
    stored is the one given here. *)
Definition parseInt (s : list N) : option Z :=
  let s := trim_start s in
  let negative := bool_decide (head s = Some 45%N) in
  let s := if negative || bool_decide (head s = Some 43%N) then tail s else s in
  let hex :=
    match s with
    | c0 :: c1 :: _ => (c0 =? 48)%N && ((c1 =? 120)%N || (c1 =? 88)%N)
    | _ => false
    end in
  let radix := if hex then 16 else 10 in
  let s := if hex then drop 2 s else s in
  (fun v => if negative then - v else v) <$> leading_digits radix s None.

(** No space among the characters. *)
Fixpoint spaceless (s : string) : bool :=
  match s with
  | EmptyString => true
  | String c rest => negb (Ascii.eqb c " ") && spaceless rest
  end.




(** No white space among the characters. *)
Definition clean (s : string) : Prop :=
  Forall (fun c => is_whitespace c = false) (units s).




End Text.

(** The libraries the routes call, as far as the routes use them. *)
Module Lib.

(** bcryptjs: [hashSync(password, salt)] with the salt [genSaltSync]
    draws, and [compareSync(password, hash)]. *)
Class Bcrypt : Type := mkBcrypt {
  hashSync : string -> string -> string;
  compareSync : string -> string -> bool
}.

(** The payload [{ id: user.id, role: user.role }] of a token. *)
Record payload : Type := mkPayload {
  payload_id : Z;
  payload_role : option string
}.

(** jsonwebtoken with [process.env.JWT_SECRET]: [sign] at a time, with
    [expiresIn: '1d']; [verify] at a time, [None] where it throws. *)
Class Jwt : Type := mkJwt {
  sign : Z -> payload -> string;
  verify : Z -> string -> option payload
}.

(** The storage client: the public URL of an object of the bucket
    'products'. *)
Class Supabase : Type := mkSupabase {
  publicUrl : list N -> string
}.

(** What the store makes of the values of an insert that are not of
    the type of their column: the text sent for a numeric column is read
    by the store, or refused with an error; a NaN sent for an integer
    column is refused. *)
Class Driver : Type := mkDriver {
  numeric_in : string -> string + Js.numeric;
  integer_NaN : string
}.

End Lib.

(** What a route that talks to [db] outside a transaction leaves
    behind: each statement takes effect as it is awaited. *)
Module Route.

Import Tx.

Record reply (A : Type) : Type := mkReply {
  sent : A;
  store_left : Db.store;
  statements : list event
}.
Arguments mkReply {A} _ _ _.
Arguments sent {A} _.
Arguments store_left {A} _.
Arguments statements {A} _.

(** Runs the body of a handler; [uncaught] is the response when an
    error leaves the body. *)
Definition handle {A : Type} (body : tx A) (uncaught : string -> A)
    (d : Db.store) (fs : list (option string)) : reply A :=
  let r := run body d fs in
  mkReply (match value r with inr a => a | inl m => uncaught m end)
          (final r) (log r).

End Route.

Module Auth.

Import Tx Lib Route.

Inductive login_response : Type :=
(* c.json({ success: true, token }) *)
| Login200 (token : string)
(* c.json({ success: false, message: 'Login Gagal' }, 401) *)
| Login401
(* the route has no try/catch: the framework answers an error *)
| Login500.

(** [app.post('/api/login', ...)], the same in both revisions. *)
Definition login `{Bcrypt} `{Jwt} (now : Z) (username password : string)
    : tx login_response :=
  (user <- await (Db.FindFirstUser username);;
   match user with
   | None => Ret Login401
   | Some u =>
       if compareSync password (User.password u)
       then Ret (Login200 (sign now (mkPayload (User.id u) (User.role u))))
       else Ret Login401
   end)%tx.

Definition post_api_login `{Bcrypt} `{Jwt} (now : Z) (username password : string)
    (d : Db.store) (fs : list (option string)) : reply login_response :=
  handle (login now username password) (fun _ => Login500) d fs.

Inductive register_response : Type :=
(* c.json({ success: true, message: 'Registrasi Berhasil! Silakan Login.' }) *)
| Register200
(* c.json({ success: false, message: 'Username sudah digunakan' }, 400) *)
| Register400
(* c.json({ success: false, message: 'Gagal daftar: ' + e.message }, 500) *)
| Register500 (message : string).

(** [app.post('/api/register', ...)] of the later revision; [salt] is
    what [bcrypt.genSaltSync(10)] returns. *)
Definition register `{Bcrypt} (salt username password : string)
    : tx register_response :=
  (existingUser <- await (Db.FindFirstUser username);;
   match existingUser with
   | Some _ => Ret Register400
   | None =>
       (await (Db.InsertUser username (hashSync password salt) "admin");;;
        Ret Register200)
   end)%tx.

Definition post_api_register `{Bcrypt} (salt username password : string)
    (d : Db.store) (fs : list (option string)) : reply register_response :=
  handle (register salt username password)
         (fun m => Register500 ("Gagal daftar: " +:+ m)) d fs.

Inductive auth_result : Type :=
(* c.json({ message: 'Unauthorized' }, 401) *)
| Auth401
(* c.json({ message: 'Invalid Token' }, 403) *)
| Auth403
(* c.set('user', payload); await nex() *)
| AuthNext (user : payload).

(** [authMiddleware]; [authorization] is [c.req.header('Authorization')].
    The handler behind it catches its own errors, so [await nex()] does
    not throw. *)
Definition authMiddleware `{Jwt} (now : Z) (authorization : option string)
    : auth_result :=
  match authorization with
  | None => Auth401
  | Some authHeader =>
      if String.eqb authHeader "" then Auth401
      else
        match Text.split " "%char authHeader !! 1%nat with
        | None => Auth403           (* jwt.verify(undefined) throws *)
        | Some token =>
            match verify now token with
            | Some user => AuthNext user
            | None => Auth403
            end
        end
  end.

(** No two users share a username, and each row is stored under its id. *)
Definition usernames_unique (us : gmap Z User.row) : Prop :=
  forall i j u u', us !! i = Some u -> us !! j = Some u' ->
                   User.username u = User.username u' -> i = j.

Definition users_ahead (d : Db.store) : Prop :=
  forall id, Db.users_id_seq (Db.seqs d) < id -> Db.users (Db.rows d) !! id = None.

End Auth.

Module Catalog.

Import Tx Lib Route.

Inductive list_response : Type :=
(* c.json({ success: true, data }) *)
| List200 (data : list Product.row)
(* the route has no try/catch: the framework answers an error *)
| List500.

(** [app.get('/api/products', ...)] *)
Definition list_products : tx list_response :=
  (data <- await Db.SelectProducts;; Ret (List200 data))%tx.

Definition get_api_products (d : Db.store) (fs : list (option string))
    : reply list_response :=
  handle list_products (fun _ => List500) d fs.

(** A [File] of a multipart body. *)
Record file : Type := mkFile {
  file_name : list N;
  file_type : string;
  file_content : list N
}.

Inductive form_value : Type :=
| FormText (s : string)
| FormFile (f : file).

(** The fields of the body the upload reads, as the admin page sends
    them; [image] may be missing or a text. *)
Record form : Type := mkForm {
  image : option form_value;
  name : string;
  description : option string;
  price : string;
  stock : list N;
  categoryId : list N
}.

(** An object of the bucket 'products'. *)
Record object : Type := mkObject {
  contentType : string;
  content : list N
}.

Definition already_exists : string := "The resource already exists".

(** [supabase.storage.from('products').upload(fileName, bytes, { contentType })]:
    the error of the service if it has one; an existing object is not
    overwritten. *)
Definition upload_object (bucket : gmap (list N) object) (fileName : list N) (o : object)
    (error : option string) : string + gmap (list N) object :=
  match error with
  | Some m => inl m
  | None =>
      match bucket !! fileName with
      | Some _ => inl already_exists
      | None => inr (<[fileName := o]> bucket)
      end
  end.

(** [`prod_${Date.now()}_${imageFile.name.replace(/\s/g, '_')}`] *)
Definition fileName (now : Z) (f : file) : list N :=
  Text.units ("prod_" +:+ pretty now +:+ "_") ++ Text.replace_whitespace (file_name f).

Inductive upload_response : Type :=
(* c.json({ success: true, message: 'Produk Tersimpan', imageUrl }) *)
| Upload200 (imageUrl : string)
(* c.json({ success: false, message: 'Gambar Wajib!' }, 400) *)
| Upload400
(* c.json({ message: 'Unauthorized' }, 401) *)
| Upload401
(* c.json({ message: 'Invalid Token' }, 403) *)
| Upload403
(* c.json({ success: false, message: e.message }, 500) *)
| Upload500 (message : string).

Record uploaded : Type := mkUploaded {
  upload_sent : upload_response;
  bucket_left : gmap (list N) object;
  upload_store_left : Db.store
}.

(** The values of the insert as the store takes them, or its refusal. *)
Definition insert_values `{Driver} (b : form) : string + (Js.numeric * Z * Z) :=
  match numeric_in (price b) with
  | inl m => inl m
  | inr p =>
      match Text.parseInt (stock b), Text.parseInt (categoryId b) with
      | Some s, Some c => inr (p, s, c)
      | _, _ => inl integer_NaN
      end
  end.

(** The handler of [app.post('/api/products', authMiddleware, ...)];
    [now] is [Date.now()], [error] the error of the storage service. *)
Definition upload `{Supabase} `{Driver} (b : form) (now : Z) (error : option string)
    (bucket : gmap (list N) object) (d : Db.store) (fs : list (option string))
    : uploaded :=
  match image b with
  | Some (FormFile f) =>
      match upload_object bucket (fileName now f)
                          (mkObject (file_type f) (file_content f)) error with
      | inl m => mkUploaded (Upload500 m) bucket d
      | inr bucket' =>
          let imageUrl := publicUrl (fileName now f) in
          match insert_values b with
          | inl m => mkUploaded (Upload500 m) bucket' d
          | inr (p, s, c) =>
              let r := run (await (Db.InsertProduct (name b) (description b) p s
                                                    (Some c) (Some imageUrl))) d fs in
              mkUploaded (match value r with
                          | inr _ => Upload200 imageUrl
                          | inl m => Upload500 m
                          end)
                         bucket' (final r)
          end
      end
  | _ => mkUploaded Upload400 bucket d
  end.

(** The route: the middleware, then the handler. *)
Definition post_api_products `{Jwt} `{Supabase} `{Driver} (authorization : option string)
    (b : form) (now : Z) (error : option string)
    (bucket : gmap (list N) object) (d : Db.store) (fs : list (option string))
    : uploaded :=
  match Auth.authMiddleware now authorization with
  | Auth.Auth401 => mkUploaded Upload401 bucket d
  | Auth.Auth403 => mkUploaded Upload403 bucket d
  | Auth.AuthNext _ => upload b now error bucket d fs
  end.

(** The order of the listing: ids do not rise. *)
Definition by_id_desc : relation Product.row :=
  fun p q => Product.id q <= Product.id p.


End Catalog.

(** src/db/seed.js, run against a store that refuses nothing. *)
Module Seed.

Import Lib.

(** [db.insert(users).values({ ... }).onConflictDoNothing()]: the row
    gets the next id; it is dropped when its id or its username is
    taken. *)
Definition insert_user_on_conflict_do_nothing (u p r : string) (d : Db.store)
    : Db.store :=
  let sq := Db.seqs d in
  let id := Db.users_id_seq sq + 1 in
  let sq' := Db.mkSequences id (Db.categories_id_seq sq) (Db.products_id_seq sq)
                            (Db.orders_id_seq sq) (Db.order_items_id_seq sq) in
  match Db.users (Db.rows d) !! id, Db.first_user u (Db.users (Db.rows d)) with
  | None, None =>
      Db.mkStore (Db.apply_write (Db.PutUser (User.mk id u p (Some r))) (Db.rows d))
                 sq' (Db.clock d)
  | _, _ => Db.mkStore (Db.rows d) sq' (Db.clock d)
  end.

(** The rows of [db.insert(categories).values([...])], numbered from the
    sequence value [seq] on. *)
Fixpoint category_rows (seq : Z) (names : list string) : list Category.row :=
  match names with
  | [] => []
  | n :: rest => Category.mk (seq + 1) n :: category_rows (seq + 1) rest
  end.

(** One insert of several rows: all of them or, when an id is taken,
    the error and none. *)
Definition insert_categories (names : list string) (d : Db.store)
    : string + Db.store :=
  let sq := Db.seqs d in
  let rows := category_rows (Db.categories_id_seq sq) names in
  let sq' := Db.mkSequences (Db.users_id_seq sq)
               (Db.categories_id_seq sq + Z.of_nat (length names))
               (Db.products_id_seq sq) (Db.orders_id_seq sq)
               (Db.order_items_id_seq sq) in
  if forallb (fun c => bool_decide (Db.categories (Db.rows d) !! Category.id c = None)) rows
  then inr (Db.mkStore (Db.apply_writes (map Db.PutCategory rows) (Db.rows d))
                       sq' (Db.clock d))
  else inl Db.duplicate_key.

Definition categories_ahead (d : Db.store) : Prop :=
  forall id, Db.categories_id_seq (Db.seqs d) < id ->
             Db.categories (Db.rows d) !! id = None.

(** [seed()]; [salt] is the salt [bcrypt.hash('admin123', 10)] draws. *)
Definition seed `{Bcrypt} (salt : string) (d : Db.store) : string + Db.store :=
  let hash := hashSync "admin123" salt in
  let d := insert_user_on_conflict_do_nothing "admin" hash "admin" d in
  insert_categories ["Makanan"; "Minuman"; "Pakaian"] d.

End Seed.

(** Stand-ins for the libraries, to run the routes on examples. *)
Module Toy.

Import Lib.

(** The hash is the salt and the password; the salt is always the
    text "$2a$10$". *)
Definition bcrypt : Bcrypt :=
  mkBcrypt (fun password salt => salt +:+ password)
           (fun password hash => String.eqb hash ("$2a$10$" +:+ password)).

Definition admin_payload : payload := mkPayload 1 (Some "admin").

(** One token, for the admin, good for a day. *)
Definition jwt : Jwt :=
  mkJwt (fun now p => "eyJhbGciOi.admin.sig")
        (fun now token =>
           if String.eqb token "eyJhbGciOi.admin.sig" then Some admin_payload else None).

Definition supabase : Supabase :=
  mkSupabase (fun fileName => "https://toko.example/storage/v1/object/public/products/x").

Definition driver : Driver :=
  mkDriver (fun text => if String.eqb text "10.00" then inr (Js.Cents 1000)
                        else inl "invalid input syntax for type numeric")
           "invalid input syntax for type integer: NaN".

(** A form of the admin page, with a photo whose name has a space. *)
Definition photo : Catalog.file :=
  Catalog.mkFile (Text.units "foto kopi.png") "image/png" [137; 80; 78; 71]%N.

Definition kopi (stock : string) : Catalog.form :=
  Catalog.mkForm (Some (Catalog.FormFile photo)) "Kopi" None "10.00"
                 (Text.units stock) (Text.units "1").

End Toy.

(** More words about the checkout. *)
Module CheckoutWords.

Import Checkout.

(** The item [it] gets past its stock check after the items [pre]: its
    product is in [ps] with at least the units asked for left once the
    units that [pre] asks of it are taken. *)
Definition passes (ps : gmap Z Product.row) (pre : list item) (it : item) : Prop :=
  exists p, ps !! productId it = Some p /\
            quantity it <= Product.stock p - ordered (productId it) pre.

(** The statements of the items [its] of the order [oid], against the
    products [ps]: for each item the lookup of its product, the insert
    of the order line with the price of the product, and the update of
    the stock to what the lookup found less the quantity; the next item
    finds the stock so updated. *)
Fixpoint statements_of_items (ps : gmap Z Product.row) (oid : Z) (its : list item)
    : list Tx.statement :=
  match its with
  | [] => []
  | it :: rest =>
      match ps !! productId it with
      | Some p =>
          Tx.Statement (Db.FindFirstProduct (productId it))
          :: Tx.Statement (Db.InsertOrderItem oid (productId it) (quantity it)
                                              (Product.price p))
          :: Tx.Statement (Db.UpdateProductStock (productId it)
                                                 (Product.stock p - quantity it))
          :: statements_of_items
               (alter (Product.set_stock (Product.stock p - quantity it))
                      (productId it) ps)
               oid rest
      | None => []
      end
  end.

(** The statements of a checkout that goes through: the insert of the
    order with the total "0", the statements of the items, and the
    update of the total with the text of the number returned. *)
Definition statements_of_checkout (req : request) (ps : gmap Z Product.row) (oid : Z)
    (total : Js.number) : list Tx.statement :=
  Tx.Statement (Db.InsertOrder (customerName req) (address req)
                               (Js.TextDecimal 0 0) "pending")
  :: statements_of_items ps oid (items req)
  ++ [Tx.Statement (Db.UpdateOrderTotalAmount oid (Js.toString total))].

End CheckoutWords.

(* ===================================================================== *)
(** ** Facts about the text of a number and the numeric column *)
(* ===================================================================== *)

Module NumberFacts.

(** The texts of some numbers: 0.1 * 3, 30, 12.5, -20, 1e21, the least
    and the greatest positive number, and the number next below 1e23,
    which is the number value of "1e23". *)
Example toString_0_1_times_3 :
  Js.toString (Js.mul (Js.parseFloat (Js.Text (Js.Cents 10))) (Js.of_Z 3))
  = Js.TextDecimal 30000000000000004 (-17).
Proof. vm_compute. reflexivity. Qed.

Example toString_30 : Js.toString (Js.of_Z 30) = Js.TextDecimal 3 1.
Proof. vm_compute. reflexivity. Qed.

Example toString_12_5 :
  Js.toString (Js.parseFloat (Js.Text (Js.Cents 1250))) = Js.TextDecimal 125 (-1).
Proof. vm_compute. reflexivity. Qed.

Example toString_minus_20 : Js.toString (Js.of_Z (-20)) = Js.TextDecimal (-2) 1.
Proof. vm_compute. reflexivity. Qed.

Example toString_1e21 : Js.toString (Js.of_Z (10 ^ 21)) = Js.TextDecimal 1 21.
Proof. vm_compute. reflexivity. Qed.

Example toString_least : Js.toString (S754_finite false 1 (-1074)) = Js.TextDecimal 5 (-324).
Proof. vm_compute. reflexivity. Qed.

Example toString_greatest :
  Js.toString (S754_finite false 9007199254740991 971)
  = Js.TextDecimal 17976931348623157 292.
Proof. vm_compute. reflexivity. Qed.

Example toString_1e23 : Js.toString (Js.of_Z (10 ^ 23)) = Js.TextDecimal 1 23.
Proof. vm_compute. reflexivity. Qed.

(** A text with at most two fractional digits is kept as it is. *)
Lemma numeric_12_2_exact s q :
  0 <= q + 2 -> Db.numeric_12_2 (Js.TextDecimal s q) = Js.Cents (s * 10 ^ (q + 2)).
Proof.
  intros Hq. unfold Db.numeric_12_2.
  apply Z.leb_le in Hq. rewrite Hq. f_equal.
  rewrite Z.mul_assoc, (Z.mul_comm (Z.sgn s)), Z.abs_sgn. done.
Qed.

(** A text with more fractional digits is rounded to the nearest cent:
    the cents kept are within half a cent of the decimal, and a decimal
    half way between two cents goes to the one farther from zero. *)
Lemma numeric_12_2_rounds s q :
  q + 2 < 0 ->
  exists c, Db.numeric_12_2 (Js.TextDecimal s q) = Js.Cents (Z.sgn s * c) /\
            let d := 10 ^ (- (q + 2)) in
            - d <= 2 * (Z.abs s - c * d) < d.
Proof.
  intros Hq. unfold Db.numeric_12_2.
  assert ((0 <=? q + 2) = false) as -> by (apply Z.leb_gt; lia).
  eexists. split; [reflexivity|]. cbn zeta.
  assert (Hd : 0 < 10 ^ (- (q + 2))) by (apply Z.pow_pos_nonneg; lia).
  set (d := 10 ^ (- (q + 2))) in *. set (a := Z.abs s).
  assert (Hdiv := Z.div_mod (2 * a + d) (2 * d) ltac:(lia)).
  assert (Hmod := Z.mod_pos_bound (2 * a + d) (2 * d) ltac:(lia)).
  nia.
Qed.

Example numeric_12_2_half_cent :
  Db.numeric_12_2 (Js.TextDecimal 125 (-3)) = Js.Cents 13 /\
  Db.numeric_12_2 (Js.TextDecimal (-125) (-3)) = Js.Cents (-13) /\
  Db.numeric_12_2 (Js.TextDecimal 30000000000000004 (-17)) = Js.Cents 30 /\
  Db.numeric_12_2 (Js.TextDecimal 1 (-7)) = Js.Cents 0.
Proof. repeat split. Qed.

End NumberFacts.

(* ===================================================================== *)
(** ** Facts about running a transaction body *)
(* ===================================================================== *)

Module TxFacts.

Import Tx.

Lemma run_Exec_refused {A R} (s : Db.stmt R) (k : R -> tx A) d fs m :
  refused fs = Some m ->
  run (Exec s k) d fs = mkResult (inl m) d (tail fs) [Issued s (Db.rows d)].
Proof.
  destruct fs as [|[m'|] fs]; simpl; intros H; try discriminate.
  by injection H as ->.
Qed.

Lemma run_Exec_accepted {A R} (s : Db.stmt R) (k : R -> tx A) d fs :
  refused fs = None ->
  run (Exec s k) d fs =
    let o := Db.exec s (Db.rows d) (Db.seqs d) (Db.clock d) in
    let t' := Db.apply_writes (Db.written o) (Db.rows d) in
    let d' := Db.mkStore t' (Db.seqs_after o) (Db.clock d) in
    match Db.returned o with
    | inl m => mkResult (inl m) d' (tail fs) [Issued s t']
    | inr r => logged (Issued s t') (run (k r) d' (tail fs))
    end.
Proof. destruct fs as [|[m'|] fs]; simpl; intros H; done. Qed.

(** Sequencing: the second part starts where the first one stopped. *)
Lemma run_bind {A B} (t : tx A) (f : A -> tx B) d fs :
  run (bind t f) d fs =
    let r := run t d fs in
    match value r with
    | inl m => mkResult (inl m) (final r) (unused r) (log r)
    | inr a =>
        let r' := run (f a) (final r) (unused r) in
        mkResult (value r') (final r') (unused r') (log r ++ log r')
    end.
Proof.
  revert d fs. induction t as [a|m|R s k IH]; intros d fs; simpl.
  - by destruct (run (f a) d fs).
  - done.
  - destruct fs as [|[m|] fs]; simpl; try done.
    + destruct (Db.returned _) as [m|r]; simpl; [done|].
      rewrite IH. simpl. by destruct (value (run (k r) _ _)).
    + destruct (Db.returned _) as [m|r]; simpl; [done|].
      rewrite IH. simpl. by destruct (value (run (k r) _ _)).
Qed.

Lemma issues_bind {A B} P (t : tx A) (f : A -> tx B) :
  issues P t -> (forall a, issues P (f a)) -> issues P (bind t f).
Proof.
  intros Ht Hf. induction Ht as [a|m|R s k Hs Hk IH]; simpl.
  - apply Hf.
  - constructor.
  - constructor; [done|]. intros r. apply IH.
Qed.

Lemma issues_impl {A} (P Q : forall R, Db.stmt R -> Prop) (t : tx A) :
  (forall R s, P R s -> Q R s) -> issues P t -> issues Q t.
Proof.
  intros HPQ Ht. induction Ht; constructor; auto.
Qed.

Lemma issues_Exec_inv {A R} P (s : Db.stmt R) (k : R -> tx A) :
  issues P (Exec s k) -> P R s /\ forall r, issues P (k r).
Proof.
  intros H.
  change (match Exec s k with
          | Exec s' k' => P _ s' /\ forall r, issues P (k' r)
          | _ => True
          end).
  by destruct H.
Qed.

(** Only statements of the body show up in the log. *)
Lemma run_log_issues {A} P (t : tx A) d fs :
  issues P t -> Forall (event_satisfies P) (log (run t d fs)).
Proof.
  intros Ht. revert d fs.
  induction Ht as [a|m|R s k Hs Hk IH]; intros d fs; simpl; try constructor.
  destruct fs as [|[m|] fs]; simpl.
  - destruct (Db.returned _); simpl; constructor; auto.
  - constructor; auto.
  - destruct (Db.returned _); simpl; constructor; auto.
Qed.

(** An invariant of the rows that every statement of the body keeps
    holds after each statement and at the end. *)
Lemma run_preserves {A} (P : forall R, Db.stmt R -> Prop) (I : Db.tables -> Prop)
    (t : tx A) d fs :
  (forall R (s : Db.stmt R) t sq now,
      P R s -> I t -> I (Db.apply_writes (Db.written (Db.exec s t sq now)) t)) ->
  issues P t ->
  I (Db.rows d) ->
  I (Db.rows (final (run t d fs))) /\
  Forall (fun e => I (event_after e)) (log (run t d fs)).
Proof.
  intros HP Ht. revert d fs.
  induction Ht as [a|m|R s k Hs Hk IH]; intros d fs Hd; simpl; try by auto.
  assert (Hstep := HP R s (Db.rows d) (Db.seqs d) (Db.clock d) Hs Hd).
  set (o := Db.exec s (Db.rows d) (Db.seqs d) (Db.clock d)) in *.
  set (d' := Db.mkStore (Db.apply_writes (Db.written o) (Db.rows d))
                        (Db.seqs_after o) (Db.clock d)).
  assert (Hgo : forall fs', I (Db.rows (final
             match Db.returned o with
             | inl m => mkResult (inl m) d' fs' [Issued s (Db.rows d')]
             | inr r => logged (Issued s (Db.rows d')) (run (k r) d' fs')
             end)) /\ Forall (fun e => I (event_after e)) (log
             match Db.returned o with
             | inl m => mkResult (inl m) d' fs' [Issued s (Db.rows d')]
             | inr r => logged (Issued s (Db.rows d')) (run (k r) d' fs')
             end)).
  { intros fs'. destruct (Db.returned o) as [m|r]; simpl; [by auto|].
    destruct (IH r d' fs' Hstep) as [? ?]. split; [done|]. by constructor. }
  destruct fs as [|[m|] fs]; simpl; [apply Hgo| by auto |apply Hgo].
Qed.

(** A body that has returned was refused none of its statements: the
    script holds no error at the place of any statement issued. *)
Lemma run_inr_unrefused {A} (t : tx A) d fs a :
  value (run t d fs) = inr a ->
  forall i m, fs !! i = Some (Some m) -> (length (log (run t d fs)) <= i)%nat.
Proof.
  revert d fs. induction t as [a'|m'|R s k IH]; intros d fs; simpl.
  - intros _ i m _. lia.
  - discriminate.
  - destruct fs as [|[m'|] fs]; simpl.
    + intros _ i m Hi. by rewrite lookup_nil in Hi.
    + discriminate.
    + destruct (Db.returned _) as [m'|r]; simpl; [discriminate|].
      intros H [|i] m Hi; simpl in Hi; [discriminate|].
      specialize (IH r _ _ H i m Hi). lia.
Qed.

End TxFacts.

(* ===================================================================== *)
(** ** Facts about the checkout body *)
(* ===================================================================== *)

Module CheckoutFacts.

Import Tx TxFacts Checkout CheckoutWords.

Lemma run_Exec_inr {A R} (s : Db.stmt R) (k : R -> tx A) d fs a :
  value (run (Exec s k) d fs) = inr a ->
  refused fs = None /\
  exists r, Db.returned (Db.exec s (Db.rows d) (Db.seqs d) (Db.clock d)) = inr r /\
    run (Exec s k) d fs =
      let o := Db.exec s (Db.rows d) (Db.seqs d) (Db.clock d) in
      let t' := Db.apply_writes (Db.written o) (Db.rows d) in
      logged (Issued s t')
             (run (k r) (Db.mkStore t' (Db.seqs_after o) (Db.clock d)) (tail fs)).
Proof.
  destruct (refused fs) as [m|] eqn:Hfs.
  - rewrite (run_Exec_refused _ _ _ _ _ Hfs). discriminate.
  - rewrite (run_Exec_accepted _ _ _ _ Hfs). simpl.
    destruct (Db.returned _) as [m|r] eqn:Hr; [discriminate|].
    intros _. split; [done|]. by exists r.
Qed.

Lemma insert_row_inr {Row R} (tbl : gmap Z Row) id w (r : R) sq :
  tbl !! id = None ->
  Db.insert_row tbl id w r sq = Db.mkOutcome (inr r) [w] sq.
Proof. unfold Db.insert_row. by intros ->. Qed.

Lemma insert_row_returned {Row R} (tbl : gmap Z Row) id w (r r' : R) sq :
  Db.returned (Db.insert_row tbl id w r sq) = inr r' ->
  tbl !! id = None /\ r' = r.
Proof.
  unfold Db.insert_row. destruct (tbl !! id); simpl; [discriminate|].
  intros H. by injection H as ->.
Qed.

(** An item goes through only if its product exists with enough stock,
    and then leaves exactly one order line and one stock update. *)
Lemma run_process_item_inr v o it total d fs total' :
  value (run (process_item v o it total) d fs) = inr total' ->
  exists p,
    Db.products (Db.rows d) !! productId it = Some p /\
    quantity it <= Product.stock p /\
    Db.orderItems (Db.rows d) !! (Db.order_items_id_seq (Db.seqs d) + 1) = None /\
    total' = add_item v it p total /\
    final (run (process_item v o it total) d fs) = after_item o it p d /\
    unused (run (process_item v o it total) d fs) = tail (tail (tail fs)).
Proof.
  unfold process_item. cbn [bind await]. intros H.
  destruct (run_Exec_inr _ _ _ _ _ H) as (_ & product & Hp & E1).
  rewrite E1 in H |- *. clear E1. cbn in Hp. injection Hp as <-.
  cbn [logged value final unused] in *.
  destruct (Db.products (Db.rows d) !! productId it) as [p|] eqn:Hlook;
    [|discriminate].
  destruct (Product.stock p <? quantity it) eqn:Hlt; [discriminate|].
  apply Z.ltb_ge in Hlt. cbn [bind] in *.
  destruct (run_Exec_inr _ _ _ _ _ H) as (_ & [] & Hi & E2).
  rewrite E2 in H |- *. clear E2. cbn [logged value final unused] in *.
  cbn [Db.exec Db.rows Db.seqs Db.clock Db.apply_writes fold_left Db.written] in Hi.
  apply insert_row_returned in Hi as [Hfree _].
  cbn [Db.exec Db.rows Db.seqs Db.clock Db.apply_writes fold_left Db.written] in *.
  rewrite (insert_row_inr _ _ _ _ _ Hfree) in *.
  cbn [bind Db.written Db.seqs_after Db.apply_writes fold_left] in *.
  destruct (run_Exec_inr _ _ _ _ _ H) as (_ & [] & _ & E3).
  rewrite E3 in H |- *. clear E3. cbn in H. injection H as <-.
  exists p. repeat split; try done.
Qed.

Lemma set_stock_stock p : Product.set_stock (Product.stock p) p = p.
Proof. by destruct p. Qed.

Lemma set_stock_set_stock s s' p :
  Product.set_stock s (Product.set_stock s' p) = Product.set_stock s p.
Proof. done. Qed.

Lemma ordered_absent id its : id ∉ map productId its -> ordered id its = 0.
Proof.
  induction its as [|it its IH]; cbn [ordered map]; [done|].
  rewrite not_elem_of_cons. intros [Hne Hid].
  rewrite bool_decide_eq_false_2 by done. rewrite IH by done. done.
Qed.

(** A stock update does not change the price an order line copies. *)
Lemma new_lines_alter s id ps oid seq its :
  new_lines (alter (Product.set_stock s) id ps) oid seq its = new_lines ps oid seq its.
Proof.
  revert seq. induction its as [|it its IH]; intros seq; simpl; [done|].
  destruct (decide (id = productId it)) as [->|Hne].
  - rewrite lookup_alter_eq.
    destruct (ps !! productId it) as [p|]; simpl; [|done]. by rewrite IH.
  - rewrite lookup_alter_ne by done.
    destruct (ps !! productId it) as [p|]; simpl; [|done]. by rewrite IH.
Qed.

(** What a run of the loop that got through all items has done. *)
Lemma run_process_items_inr v o its : forall total d fs total',
  value (run (process_items v o its total) d fs) = inr total' ->
  let d' := final (run (process_items v o its total) d fs) in
  let ls := new_lines (Db.products (Db.rows d)) (Order.id o)
                      (Db.order_items_id_seq (Db.seqs d)) its in
  length ls = length its /\
  (forall id, Db.products (Db.rows d') !! id =
     (fun p => Product.set_stock (Product.stock p - ordered id its) p)
       <$> Db.products (Db.rows d) !! id) /\
  Db.orderItems (Db.rows d') = put_lines ls (Db.orderItems (Db.rows d)) /\
  Db.users (Db.rows d') = Db.users (Db.rows d) /\
  Db.categories (Db.rows d') = Db.categories (Db.rows d) /\
  Db.orders (Db.rows d') = Db.orders (Db.rows d) /\
  Db.orders_id_seq (Db.seqs d') = Db.orders_id_seq (Db.seqs d) /\
  total' = lines_total v ls total.
Proof.
  induction its as [|it its IH]; intros total d fs total' H.
  - simpl in *. injection H as <-. repeat split; try done.
    intros id. destruct (Db.products (Db.rows d) !! id) as [p|]; simpl; [|done].
    by rewrite Z.sub_0_r, set_stock_stock.
  - cbn [process_items] in *. rewrite run_bind in H |- *. cbn zeta in H |- *.
    destruct (value (run (process_item v o it total) d fs)) as [m|total1] eqn:E1;
      [discriminate|].
    destruct (run_process_item_inr _ _ _ _ _ _ _ E1)
      as (p & Hp & Hq & Hfree & -> & Hfin & Hun).
    cbn [value final] in H |- *. rewrite Hfin in H |- *.
    specialize (IH _ _ _ _ H). cbn zeta in IH.
    destruct IH as (Hlen & Hprod & Hitems & Hu & Hc & Ho & Hs & Ht).
    cbn [after_item Db.rows Db.seqs Db.apply_writes fold_left Db.apply_write
         Db.products Db.orderItems Db.order_items_id_seq Db.users Db.categories
         Db.orders Db.orders_id_seq OrderItem.id] in *.
    rewrite new_lines_alter in *.
    cbn [new_lines]. rewrite Hp.
    repeat split; try done.
    + simpl. by rewrite Hlen.
    + intros id. rewrite Hprod. cbn [ordered].
      destruct (decide (productId it = id)) as [<-|Hne].
      * rewrite lookup_alter_eq, Hp. simpl. rewrite bool_decide_eq_true_2 by done.
        f_equal. rewrite set_stock_set_stock. f_equal. lia.
      * rewrite lookup_alter_ne by done. rewrite bool_decide_eq_false_2 by done.
        destruct (Db.products (Db.rows d) !! id); simpl; [|done].
        do 2 f_equal.
Qed.

(** Each item that got through was checked against what the items
    before it had left of its product. *)
Lemma run_process_items_checks v o its : forall total d fs total',
  value (run (process_items v o its total) d fs) = inr total' ->
  forall pre it post, its = pre ++ it :: post ->
  exists p, Db.products (Db.rows d) !! productId it = Some p /\
            quantity it <= Product.stock p - ordered (productId it) pre.
Proof.
  induction its as [|it0 its IH]; intros total d fs total' H pre it post Hsplit.
  - by destruct pre.
  - cbn [process_items] in H. rewrite run_bind in H. cbn zeta in H.
    destruct (value (run (process_item v o it0 total) d fs)) as [m|total1] eqn:E1;
      [discriminate|].
    destruct (run_process_item_inr _ _ _ _ _ _ _ E1)
      as (p0 & Hp0 & Hq0 & _ & _ & Hfin & _).
    cbn [value final] in H. rewrite Hfin in H.
    destruct pre as [|it1 pre]; simplify_eq/=.
    + exists p0. split; [done|lia].
    + destruct (IH _ _ _ _ H pre it post eq_refl) as (p & Hp & Hq).
      cbn in Hp. rewrite lookup_alter in Hp. case_decide as Hid.
      * rewrite Hid in *. rewrite Hp0 in Hp. simplify_eq/=.
        exists p0. split; [done|]. rewrite bool_decide_eq_true_2 by done. lia.
      * exists p. split; [done|]. rewrite bool_decide_eq_false_2 by done. lia.
Qed.

Lemma lookups_app l l' : lookups (l ++ l') = lookups l ++ lookups l'.
Proof. apply omap_app. Qed.

(** One lookup of the product per item, in the caller's order. *)
Lemma run_process_item_lookups v o it total d fs total' :
  value (run (process_item v o it total) d fs) = inr total' ->
  lookups (log (run (process_item v o it total) d fs)) = [productId it].
Proof.
  unfold process_item. cbn [bind await]. intros H.
  destruct (run_Exec_inr _ _ _ _ _ H) as (_ & product & Hp & E1).
  rewrite E1 in H |- *. clear E1. cbn in Hp. injection Hp as <-.
  cbn [logged value log] in *.
  destruct (Db.products (Db.rows d) !! productId it) as [p|]; [|discriminate].
  destruct (Product.stock p <? quantity it); [discriminate|].
  cbn [bind] in *.
  destruct (run_Exec_inr _ _ _ _ _ H) as (_ & [] & _ & E2).
  rewrite E2 in H |- *. clear E2. cbn [logged value log bind] in *.
  destruct (run_Exec_inr _ _ _ _ _ H) as (_ & [] & _ & E3).
  rewrite E3. done.
Qed.

Lemma run_process_items_lookups v o its : forall total d fs total',
  value (run (process_items v o its total) d fs) = inr total' ->
  lookups (log (run (process_items v o its total) d fs)) = map productId its.
Proof.
  induction its as [|it its IH]; intros total d fs total' H; [done|].
  cbn [process_items] in *. rewrite run_bind in H |- *. cbn zeta in H |- *.
  destruct (value (run (process_item v o it total) d fs)) as [m|total1] eqn:E1;
    [discriminate|].
  cbn [value log] in H |- *. rewrite lookups_app.
  rewrite (IH _ _ _ _ H).
  by rewrite (run_process_item_lookups _ _ _ _ _ _ _ E1).
Qed.

Lemma checkout_lookups v req d fs oid total :
  value (run (checkout v req) d fs) = inr (oid, total) ->
  lookups (log (run (checkout v req) d fs)) = map productId (items req).
Proof.
  unfold checkout. cbn [bind await]. intros H.
  destruct (run_Exec_inr _ _ _ _ _ H) as (_ & o & _ & E1).
  rewrite E1 in H |- *. clear E1. cbn [logged value log] in *.
  rewrite run_bind in H |- *. cbn zeta in H |- *.
  destruct (value (run (process_items _ _ _ _) _ _)) as [m|total1] eqn:E2;
    [discriminate|].
  cbn [value log] in H |- *.
  destruct (run_Exec_inr _ _ _ _ _ H) as (_ & [] & _ & E3).
  rewrite E3. cbn [logged log run].
  change (lookups (?e :: ?l)) with (lookups [e] ++ lookups l).
  rewrite lookups_app.
  rewrite (run_process_items_lookups _ _ _ _ _ _ _ E2). cbn. by rewrite app_nil_r.
Qed.

(** *** The statements sent to the store *)

Lemma run_process_item_statements v o it total d fs total' :
  value (run (process_item v o it total) d fs) = inr total' ->
  exists p,
    Db.products (Db.rows d) !! productId it = Some p /\
    map event_statement (log (run (process_item v o it total) d fs)) =
      [Statement (Db.FindFirstProduct (productId it));
       Statement (Db.InsertOrderItem (Order.id o) (productId it) (quantity it)
                                     (Product.price p));
       Statement (Db.UpdateProductStock (productId it)
                                        (Product.stock p - quantity it))].
Proof.
  unfold process_item. cbn [bind await]. intros H.
  destruct (run_Exec_inr _ _ _ _ _ H) as (_ & product & Hp & E1).
  rewrite E1 in H |- *. clear E1. cbn in Hp. injection Hp as <-.
  cbn [logged value log] in *.
  destruct (Db.products (Db.rows d) !! productId it) as [p|]; [|discriminate].
  destruct (Product.stock p <? quantity it); [discriminate|].
  cbn [bind] in *.
  destruct (run_Exec_inr _ _ _ _ _ H) as (_ & [] & _ & E2).
  rewrite E2 in H |- *. clear E2. cbn [logged value log bind] in *.
  destruct (run_Exec_inr _ _ _ _ _ H) as (_ & [] & _ & E3).
  rewrite E3. by exists p.
Qed.

Lemma run_process_items_statements v o its : forall total d fs total',
  value (run (process_items v o its total) d fs) = inr total' ->
  map event_statement (log (run (process_items v o its total) d fs)) =
    statements_of_items (Db.products (Db.rows d)) (Order.id o) its /\
  length (log (run (process_items v o its total) d fs)) = (3 * length its)%nat.
Proof.
  induction its as [|it its IH]; intros total d fs total' H; [done|].
  cbn [process_items] in *. rewrite run_bind in H |- *. cbn zeta in H |- *.
  destruct (value (run (process_item v o it total) d fs)) as [m|total1] eqn:E1;
    [discriminate|].
  destruct (run_process_item_statements _ _ _ _ _ _ _ E1) as (p & Hp & Hlog).
  destruct (run_process_item_inr _ _ _ _ _ _ _ E1) as (p' & Hp' & _ & _ & _ & Hfin & _).
  rewrite Hp in Hp'. injection Hp' as <-.
  cbn [value log final] in H |- *. rewrite Hfin in H |- *.
  destruct (IH _ _ _ _ H) as [IHs IHl].
  rewrite map_app, length_app, IHs, IHl, Hlog, <- (length_map event_statement), Hlog.
  cbn [statements_of_items]. rewrite Hp. split; [done|]. cbn [length]. lia.
Qed.

Lemma checkout_statements v req d fs oid total :
  value (run (checkout v req) d fs) = inr (oid, total) ->
  map event_statement (log (run (checkout v req) d fs)) =
    statements_of_checkout req (Db.products (Db.rows d)) oid total /\
  length (log (run (checkout v req) d fs)) = (2 + 3 * length (items req))%nat.
Proof.
  unfold checkout. cbn [bind await]. intros H.
  destruct (run_Exec_inr _ _ _ _ _ H) as (_ & o & Ho & E1).
  rewrite E1 in H |- *. clear E1.
  cbn [Db.exec] in Ho. apply insert_row_returned in Ho as [Hfree ->].
  cbn [Db.exec] in *. rewrite (insert_row_inr _ _ _ _ _ Hfree) in *.
  cbn [logged value log Db.written Db.seqs_after Db.apply_writes fold_left
       Db.apply_write Order.id] in *.
  rewrite run_bind in H |- *. cbn zeta in H |- *.
  destruct (value (run (process_items _ _ _ _) _ _)) as [m|total1] eqn:E2;
    [discriminate|].
  destruct (run_process_items_statements _ _ _ _ _ _ _ E2) as [Hs Hl].
  cbn [value log final] in H |- *.
  destruct (run_Exec_inr _ _ _ _ _ H) as (_ & [] & _ & E3).
  rewrite E3 in H |- *. clear E3. cbn in H. injection H as <- <-.
  cbn [logged log run map event_statement length].
  rewrite map_app, length_app, Hs, Hl. cbn [Order.id Db.rows Db.products map length].
  split; [done|lia].
Qed.

(** The order header as [InsertOrder] writes it. *)
Lemma checkout_inr v req d fs oid total :
  value (run (checkout v req) d fs) = inr (oid, total) ->
  let d' := final (run (checkout v req) d fs) in
  let ls := new_lines (Db.products (Db.rows d)) oid
                      (Db.order_items_id_seq (Db.seqs d)) (items req) in
  oid = Db.orders_id_seq (Db.seqs d) + 1 /\
  Db.orders (Db.rows d) !! oid = None /\
  length ls = length (items req) /\
  (forall id, Db.products (Db.rows d') !! id =
     (fun p => Product.set_stock (Product.stock p - ordered id (items req)) p)
       <$> Db.products (Db.rows d) !! id) /\
  Db.orderItems (Db.rows d') = put_lines ls (Db.orderItems (Db.rows d)) /\
  Db.users (Db.rows d') = Db.users (Db.rows d) /\
  Db.categories (Db.rows d') = Db.categories (Db.rows d) /\
  Db.orders (Db.rows d') =
    <[oid := header req oid (stored_total total) (Db.clock d)]> (Db.orders (Db.rows d)) /\
  total = lines_total v ls Js.zero.
Proof.
  unfold checkout. cbn [bind await]. intros H.
  destruct (run_Exec_inr _ _ _ _ _ H) as (_ & o & Ho & E1).
  rewrite E1 in H |- *. clear E1.
  cbn [Db.exec] in Ho. apply insert_row_returned in Ho as [Hfree ->].
  cbn [Db.exec] in *. rewrite (insert_row_inr _ _ _ _ _ Hfree) in *.
  cbn [logged value final Db.written Db.seqs_after Db.apply_writes fold_left
       Db.apply_write Order.id] in *.
  rewrite run_bind in H |- *. cbn zeta in H |- *.
  destruct (value (run (process_items _ _ _ _) _ _)) as [m|total1] eqn:E2;
    [discriminate|].
  destruct (run_process_items_inr _ _ _ _ _ _ _ E2)
    as (Hlen & Hprod & Hitems & Hu & Hc & Hord & Hs & Ht).
  cbn [value final] in H |- *.
  destruct (run_Exec_inr _ _ _ _ _ H) as (_ & [] & _ & E3).
  rewrite E3 in H |- *. clear E3.
  cbn in H. injection H as <- <-.
  cbn [logged final run Db.exec Db.written Db.apply_writes fold_left Db.apply_write
       Db.rows Db.seqs Db.products Db.orderItems Db.users Db.categories Db.orders
       Db.order_items_id_seq Db.orders_id_seq Order.id] in *.
  repeat split; try done.
  rewrite Hord. by rewrite alter_insert_eq.
Qed.

(** *** The statements the body issues *)

Lemma guarded_checkout_stmt R (s : Db.stmt R) : guarded_stmt R s -> checkout_stmt R s.
Proof. by destruct s. Qed.

Lemma process_item_guarded v o it total :
  issues guarded_stmt (process_item v o it total).
Proof.
  unfold process_item. cbn [bind await].
  constructor; [done|]. intros [p|]; [|constructor].
  destruct (Product.stock p <? quantity it) eqn:Hlt; [constructor|].
  apply Z.ltb_ge in Hlt. cbn [bind].
  constructor; [done|]. intros _.
  constructor; [simpl; lia|]. intros _. constructor.
Qed.

Lemma process_items_guarded v o its total :
  issues guarded_stmt (process_items v o its total).
Proof.
  revert total. induction its as [|it its IH]; intros total; cbn [process_items].
  - constructor.
  - apply issues_bind; [apply process_item_guarded|done].
Qed.

Lemma checkout_guarded v req : issues guarded_stmt (checkout v req).
Proof.
  unfold checkout. cbn [bind await].
  constructor; [done|]. intros o.
  apply issues_bind; [apply process_items_guarded|]. intros total.
  constructor; [done|]. intros _. constructor.
Qed.

Lemma frame_refl t : checkout_frame t t.
Proof.
  repeat split. intros id. destruct (Db.products t !! id) as [p|]; constructor.
  unfold same_but_stock. by rewrite set_stock_stock.
Qed.

(** A guarded statement keeps the stocks at or above zero. *)
Lemma exec_keeps_stocks_nonneg R (s : Db.stmt R) t sq now :
  guarded_stmt R s -> stocks_nonneg t ->
  stocks_nonneg (Db.apply_writes (Db.written (Db.exec s t sq now)) t).
Proof.
  intros Hs Ht. destruct s; simpl in Hs; try done; cbn [Db.exec Db.written].
  - unfold Db.insert_row. by destruct (Db.orders t !! _).
  - unfold Db.insert_row. by destruct (Db.orderItems t !! _).
  - unfold stocks_nonneg in *. cbn. intros i p. rewrite lookup_alter.
    case_decide as Hi.
    + destruct (Db.products t !! id) as [p0|] eqn:E; simpl; [|done].
      intros [= <-]. done.
    + apply Ht.
Qed.

(** A statement of the checkout stays within the frame. *)
Lemma exec_keeps_frame t0 R (s : Db.stmt R) t sq now :
  checkout_stmt R s -> checkout_frame t0 t ->
  checkout_frame t0 (Db.apply_writes (Db.written (Db.exec s t sq now)) t).
Proof.
  intros Hs Ht. destruct s; simpl in Hs; try done; cbn [Db.exec Db.written].
  - unfold Db.insert_row. by destruct (Db.orders t !! _).
  - unfold Db.insert_row. by destruct (Db.orderItems t !! _).
  - destruct Ht as (Hu & Hc & Hp). repeat split; try done. cbn.
    intros i. rewrite lookup_alter. specialize (Hp i).
    case_decide as Hi; [subst i|done].
    destruct Hp as [p0 p Hpp|]; constructor.
    unfold same_but_stock in *. rewrite Hpp. done.
Qed.

(** *** Runs that the store does not disturb *)

Lemma run_unused_nil {A} (t : tx A) d : unused (run t d []) = [].
Proof.
  revert d. induction t as [a|m|R s k IH]; intros d; simpl; try done.
  destruct (Db.returned _); simpl; [done|]. apply IH.
Qed.

Lemma run_process_item_ok v o it total d p :
  Db.products (Db.rows d) !! productId it = Some p ->
  quantity it <= Product.stock p ->
  Db.orderItems (Db.rows d) !! (Db.order_items_id_seq (Db.seqs d) + 1) = None ->
  value (run (process_item v o it total) d []) = inr (add_item v it p total) /\
  final (run (process_item v o it total) d []) = after_item o it p d.
Proof.
  intros Hp Hq Hfree. unfold process_item. cbn [bind await run Db.exec].
  cbn [Db.returned]. rewrite Hp.
  apply Z.ltb_ge in Hq. rewrite Hq. cbn [bind run Db.exec Db.written
    Db.apply_writes fold_left Db.rows Db.seqs Db.clock tail Db.seqs_after].
  rewrite (insert_row_inr _ _ _ _ _ Hfree). done.
Qed.

Lemma run_process_item_short v o it total d :
  match Db.products (Db.rows d) !! productId it with
  | Some p => Product.stock p < quantity it
  | None => True
  end ->
  value (run (process_item v o it total) d []) =
    inl (stock_message v (Db.products (Db.rows d) !! productId it)).
Proof.
  intros H. unfold process_item. cbn [bind await run Db.exec Db.returned].
  destruct (Db.products (Db.rows d) !! productId it) as [p|]; [|done].
  apply Z.ltb_lt in H. by rewrite H.
Qed.

(** The stock error names the product, and a stock update keeps names. *)
Lemma stock_message_alter v s id (ps : gmap Z Product.row) i :
  stock_message v (alter (Product.set_stock s) id ps !! i) = stock_message v (ps !! i).
Proof.
  rewrite lookup_alter. case_decide; [subst i|done].
  by destruct (ps !! id).
Qed.

Lemma after_item_ahead o it p d : items_ahead d -> items_ahead (after_item o it p d).
Proof.
  unfold items_ahead. intros H id. cbn. intros Hid.
  rewrite lookup_insert_ne by lia. apply H. lia.
Qed.

Lemma run_process_items_ok v o its : forall total d,
  items_ahead d ->
  first_short (Db.products (Db.rows d)) its = None ->
  exists total', value (run (process_items v o its total) d []) = inr total'.
Proof.
  induction its as [|it its IH]; intros total d Hd Hs; cbn [process_items].
  - by eexists.
  - cbn [first_short] in Hs.
    destruct (Db.products (Db.rows d) !! productId it) as [p|] eqn:Hp; [|done].
    destruct (Product.stock p <? quantity it) eqn:Hlt; [done|].
    apply Z.ltb_ge in Hlt.
    destruct (run_process_item_ok v o it total d p Hp Hlt) as [Hv Hf].
    { apply Hd. lia. }
    rewrite run_bind. cbn zeta. rewrite Hv, Hf, run_unused_nil.
    destruct (IH (add_item v it p total) (after_item o it p d)) as [total' Ht].
    { by apply after_item_ahead. }
    { done. }
    exists total'. cbn [value]. done.
Qed.

Lemma run_process_items_short v o its short : forall total d,
  items_ahead d ->
  first_short (Db.products (Db.rows d)) its = Some short ->
  value (run (process_items v o its total) d []) =
    inl (stock_message v (Db.products (Db.rows d) !! productId short)).
Proof.
  induction its as [|it its IH]; intros total d Hd Hs; cbn [process_items].
  - done.
  - cbn [first_short] in Hs. rewrite run_bind. cbn zeta.
    destruct (Db.products (Db.rows d) !! productId it) as [p|] eqn:Hp.
    + destruct (Product.stock p <? quantity it) eqn:Hlt.
      * injection Hs as <-. rewrite run_process_item_short.
        -- done.
        -- rewrite Hp. by apply Z.ltb_lt.
      * apply Z.ltb_ge in Hlt.
        destruct (run_process_item_ok v o it total d p Hp Hlt) as [Hv Hf].
        { apply Hd. lia. }
        rewrite Hv, Hf, run_unused_nil. cbn [value].
        rewrite (IH _ (after_item o it p d)); [|by apply after_item_ahead|done].
        cbn. by rewrite stock_message_alter.
    + injection Hs as <-. rewrite run_process_item_short.
      * done.
      * by rewrite Hp.
Qed.

Lemma post_api_orders_answer v req d f :
  answer (post_api_orders v req d f) =
    match value (run (checkout v req) d (on_statement f)), on_commit f with
    | inr (oid, total), None => Json200 oid total
    | inr _, Some m => Json400 m
    | inl m, _ => Json400 m
    end.
Proof.
  unfold post_api_orders, transaction.
  destruct (value _) as [m|[oid total]]; [done|]. by destruct (on_commit f).
Qed.

Lemma post_api_orders_store v req d f oid total :
  answer (post_api_orders v req d f) = Json200 oid total ->
  value (run (checkout v req) d (on_statement f)) = inr (oid, total) /\
  store_after (post_api_orders v req d f) = final (run (checkout v req) d (on_statement f)).
Proof.
  unfold post_api_orders, transaction.
  destruct (value _) as [m|[oid' total']]; [done|].
  destruct (on_commit f); [done|]. cbn. by intros [= -> ->].
Qed.

Lemma post_api_orders_issued v req d f :
  issued (post_api_orders v req d f) = log (run (checkout v req) d (on_statement f)).
Proof.
  unfold post_api_orders, transaction.
  destruct (value _) as [m|[oid' total']]; [done|].
  by destruct (on_commit f).
Qed.

(** With a store that refuses nothing, the answer is decided by the
    stock checks alone. *)
Lemma post_api_orders_undisturbed v req d :
  sequences_ahead d ->
  answer (post_api_orders v req d no_faults) = undisturbed_answer v req d.
Proof.
  intros [Hord Hit]. rewrite post_api_orders_answer. cbn [no_faults on_statement on_commit].
  unfold undisturbed_answer.
  assert (Hfree : Db.orders (Db.rows d) !! (Db.orders_id_seq (Db.seqs d) + 1) = None)
    by (apply Hord; lia).
  destruct (first_short _ _) as [short|] eqn:Hs.
  - unfold checkout. cbn [bind await run Db.exec].
    rewrite (insert_row_inr _ _ _ _ _ Hfree).
    cbn [Db.returned logged value Db.written Db.seqs_after tail].
    rewrite run_bind. cbn zeta.
    erewrite run_process_items_short; [done|done|exact Hs].
  - assert (exists total, value (run (checkout v req) d []) =
              inr (Db.orders_id_seq (Db.seqs d) + 1, total)) as [total Ht].
    { unfold checkout. cbn [bind await run Db.exec].
      rewrite (insert_row_inr _ _ _ _ _ Hfree).
      cbn [Db.returned logged value Db.written Db.seqs_after tail].
      rewrite run_bind. cbn zeta.
      match goal with
      | |- context [run (process_items v ?o ?its ?t) ?d1 []] =>
          destruct (run_process_items_ok v o its t d1) as [total Ht];
            [exact Hit|exact Hs|]
      end.
      exists total. rewrite Ht. cbn [value]. rewrite run_unused_nil. done. }
    rewrite Ht.
    destruct (checkout_inr _ _ _ _ _ _ Ht) as (_ & _ & _ & _ & _ & _ & _ & _ & ->).
    done.
Qed.

(** The checks of a whole call that answered with success. *)
Lemma checkout_checks v req d fs oid total :
  value (run (checkout v req) d fs) = inr (oid, total) ->
  forall pre it post, items req = pre ++ it :: post ->
  exists p, Db.products (Db.rows d) !! productId it = Some p /\
            quantity it <= Product.stock p - ordered (productId it) pre.
Proof.
  unfold checkout. cbn [bind await]. intros H.
  destruct (run_Exec_inr _ _ _ _ _ H) as (_ & o & Ho & E1).
  rewrite E1 in H. clear E1. cbn [logged value] in H.
  rewrite run_bind in H. cbn zeta in H.
  destruct (value (run (process_items _ _ _ _) _ _)) as [m|total1] eqn:E2;
    [discriminate|].
  intros pre it post Hsplit.
  destruct (run_process_items_checks _ _ _ _ _ _ _ E2 pre it post Hsplit)
    as (p & Hp & Hq).
  exists p. split; [|done].
  cbn [Db.exec] in Hp. unfold Db.insert_row in Hp.
  by destruct (Db.orders (Db.rows d) !! _).
Qed.

(** The handler reads [productId] and [quantity] of an item, nothing else. *)
Lemma run_process_items_reads v o its : forall its' total d fs,
  map productId its = map productId its' ->
  map quantity its = map quantity its' ->
  run (process_items v o its total) d fs = run (process_items v o its' total) d fs.
Proof.
  induction its as [|it its IH]; intros [|it' its'] total d fs Hp Hq;
    try discriminate; [done|].
  cbn [map] in Hp, Hq. injection Hp as Hp1 Hp2. injection Hq as Hq1 Hq2.
  cbn [process_items]. rewrite !run_bind. cbn zeta.
  replace (process_item v o it' total) with (process_item v o it total)
    by (unfold process_item; rewrite Hp1, Hq1; reflexivity).
  destruct (value (run (process_item v o it total) d fs)) as [m|total1]; [done|].
  by rewrite (IH its').
Qed.

Lemma run_checkout_reads v req req' d fs :
  customerName req = customerName req' ->
  address req = address req' ->
  map productId (items req) = map productId (items req') ->
  map quantity (items req) = map quantity (items req') ->
  run (checkout v req) d fs = run (checkout v req') d fs.
Proof.
  intros Hc Ha Hp Hq. unfold checkout. cbn [bind await]. rewrite Hc, Ha.
  assert (Hk : forall o d1 fs1,
    run (total <- process_items v o (items req) Js.zero;;
         Exec (Db.UpdateOrderTotalAmount (Order.id o) (Js.toString total))
              (fun _ => Ret (Order.id o, total)))%tx d1 fs1 =
    run (total <- process_items v o (items req') Js.zero;;
         Exec (Db.UpdateOrderTotalAmount (Order.id o) (Js.toString total))
              (fun _ => Ret (Order.id o, total)))%tx d1 fs1).
  { intros o d1 fs1. rewrite !run_bind. cbn zeta.
    by rewrite (run_process_items_reads v o (items req) (items req')). }
  destruct fs as [|[m|] fs]; cbn [run]; try done.
  - destruct (Db.returned _) as [m|o]; [done|]. cbn [bind]. by rewrite Hk.
  - destruct (Db.returned _) as [m|o]; [done|]. cbn [bind]. by rewrite Hk.
Qed.

(** *** The sequences after a checkout *)






(** A call that is not answered with success leaves the rows alone. *)
Lemma failed_checkout_rows v req d f message :
  answer (post_api_orders v req d f) = Json400 message ->
  Db.rows (store_after (post_api_orders v req d f)) = Db.rows d.
Proof.
  unfold post_api_orders, transaction.
  destruct (value _) as [m|[oid total]]; [done|].
  destruct (on_commit f); done.
Qed.


End CheckoutFacts.

(* ===================================================================== *)
(** ** Facts about overlapping checkouts *)
(* ===================================================================== *)

Module ConcurrentFacts.

Import Tx TxFacts Checkout CheckoutFacts Concurrent.

Lemma exec_guarded_writes R (s : Db.stmt R) t sq now :
  guarded_stmt R s -> Forall guarded_write (Db.written (Db.exec s t sq now)).
Proof.
  intros Hs. destruct s; simpl in Hs; try done; cbn [Db.exec Db.written].
  - unfold Db.insert_row. destruct (Db.orders t !! _); repeat constructor.
  - unfold Db.insert_row. destruct (Db.orderItems t !! _); repeat constructor.
  - by repeat constructor.
  - by repeat constructor.
Qed.

Lemma apply_write_guarded w t :
  guarded_write w -> stocks_nonneg t -> stocks_nonneg (Db.apply_write w t).
Proof.
  intros Hw Ht. destruct w; simpl in Hw; try done.
  unfold stocks_nonneg in *. cbn. intros i p. rewrite lookup_alter.
  case_decide as Hi; [|apply Ht].
  destruct (Db.products t !! id) as [p0|]; simpl; [|done].
  by intros [= <-].
Qed.

Lemma apply_writes_guarded ws : forall t,
  Forall guarded_write ws -> stocks_nonneg t -> stocks_nonneg (Db.apply_writes ws t).
Proof.
  induction ws as [|w ws IH]; intros t Hws Ht; [done|].
  inversion_clear Hws as [|? ? Hw Hrest].
  unfold Db.apply_writes in *. cbn [fold_left]. apply IH; [done|].
  by apply apply_write_guarded.
Qed.

(** One step of any session keeps the committed stocks at or above zero,
    and keeps every session a session of a checkout. *)
Lemma step_keeps_stocks_nonneg i srv :
  stocks_nonneg (committed srv) /\ Forall checkout_session (sessions srv) ->
  stocks_nonneg (committed (step i srv)) /\ Forall checkout_session (sessions (step i srv)).
Proof.
  intros [Hc Hs]. unfold step.
  destruct (sessions srv !! i) as [[rest own|a]|] eqn:Hi; [|done|done].
  assert (Hok : checkout_session (Open rest own))
    by (eapply Forall_lookup_1; [exact Hs|exact Hi]).
  destruct Hok as [Hrest Hown].
  destruct rest as [[oid total]|m|R s k]; cbn [committed sessions].
  - split; [by apply apply_writes_guarded|]. by apply Forall_insert.
  - split; [done|]. by apply Forall_insert.
  - destruct (must_wait _ _ _); [done|]. cbn [committed sessions].
    split; [done|]. apply Forall_insert; [done|].
    destruct (issues_Exec_inv _ _ _ Hrest) as [Hstmt Hk].
    destruct (Db.returned _) as [m|r]; [done|].
    split; [apply Hk|].
    apply Forall_app. split; [done|]. by apply exec_guarded_writes.
Qed.

Lemma serve_keeps_stocks_nonneg schedule : forall srv,
  stocks_nonneg (committed srv) /\ Forall checkout_session (sessions srv) ->
  stocks_nonneg (committed (serve schedule srv)).
Proof.
  induction schedule as [|i schedule IH]; intros srv H; [by destruct H|].
  unfold serve in *. cbn [fold_left]. apply IH. by apply step_keeps_stocks_nonneg.
Qed.

Lemma arrive_checkout_sessions v reqs d :
  Forall checkout_session (sessions (arrive v reqs d)).
Proof.
  cbn. induction reqs as [|req reqs IH]; constructor; [|done].
  split; [apply checkout_guarded|constructor].
Qed.

End ConcurrentFacts.

(* ===================================================================== *)
(** ** Properties of the checkout *)
(* ===================================================================== *)

Import Tx TxFacts Checkout CheckoutWords CheckoutFacts.

(** C1. Atomicity. When an item of the request, at its turn, finds its
    product missing or with fewer units left than it asks for, or when
    the store refuses one of the statements of the call or refuses the
    commit, [POST /api/orders] does not answer with success and the rows
    of all five tables are the rows from before the call: no order, no
    order line and no stock change of the call stays. The rows are those
    from before the call whenever the call does not answer with success,
    whatever the reason. *)
Theorem failed_checkout_leaves_no_row v req d f :
  ((exists pre it post, items req = pre ++ it :: post /\
                        ~ passes (Db.products (Db.rows d)) pre it) \/
   (exists i m, on_statement f !! i = Some (Some m) /\
                (i < 2 + 3 * length (items req))%nat) \/
   (exists m, on_commit f = Some m) ->
   (exists message, answer (post_api_orders v req d f) = Json400 message) /\
   Db.rows (store_after (post_api_orders v req d f)) = Db.rows d) /\
  (forall message,
     answer (post_api_orders v req d f) = Json400 message ->
     Db.rows (store_after (post_api_orders v req d f)) = Db.rows d).
Proof.
  split; [|apply failed_checkout_rows].
  intros Hcause.
  destruct (answer (post_api_orders v req d f)) as [oid total|message] eqn:Ha.
  - exfalso. destruct (post_api_orders_store _ _ _ _ _ _ Ha) as [Hv _].
    destruct Hcause as [(pre & it & post & Hsplit & Hnot)|[(i & m & Hi & Hlt)|[m Hm]]].
    + apply Hnot. exact (checkout_checks _ _ _ _ _ _ Hv pre it post Hsplit).
    + assert (Hle := run_inr_unrefused _ _ _ _ Hv i m Hi).
      destruct (checkout_statements _ _ _ _ _ _ Hv) as [_ Hlen]. lia.
    + rewrite post_api_orders_answer, Hv, Hm in Ha. discriminate.
  - split; [by eexists|]. by apply (failed_checkout_rows _ _ _ _ message).
Qed.

(** Two items, the second of which falls short after the first has
    written its order line and taken its units; and a request that
    would go through, refused at its fourth statement, the stock update. *)
Lemma failed_checkout_leaves_no_row_witness :
  ((exists message,
      answer (post_api_orders Perbaikan (Shop.buy [(1, 3); (2, 2)]) Shop.shop no_faults)
        = Json400 message) /\
   Db.rows (store_after
              (post_api_orders Perbaikan (Shop.buy [(1, 3); (2, 2)]) Shop.shop no_faults))
     = Db.rows Shop.shop) /\
  ((exists message,
      answer (post_api_orders Perbaikan (Shop.buy [(1, 3)]) Shop.shop
                (mkFaults [None; None; None; Some "connection terminated"] None))
        = Json400 message) /\
   Db.rows (store_after
              (post_api_orders Perbaikan (Shop.buy [(1, 3)]) Shop.shop
                 (mkFaults [None; None; None; Some "connection terminated"] None)))
     = Db.rows Shop.shop).
Proof.
  split.
  - apply (failed_checkout_leaves_no_row Perbaikan (Shop.buy [(1, 3); (2, 2)])
             Shop.shop no_faults).
    left. exists [mkItem 1 3 None], (mkItem 2 2 None), []. split; [reflexivity|].
    intros (p & Hp & Hq). vm_compute in Hp. injection Hp as <-. vm_compute in Hq.
    by apply Hq.
  - apply (failed_checkout_leaves_no_row Perbaikan (Shop.buy [(1, 3)]) Shop.shop
             (mkFaults [None; None; None; Some "connection terminated"] None)).
    right. left. exists 3%nat, "connection terminated". split; [reflexivity|].
    cbn. lia.
Defined.

(** C9. Stock never drops below zero. From a store in which every
    stock is at least zero, every statement of a checkout leaves every
    stock at least zero: in the rows the transaction sees after each
    statement and in the rows the call leaves behind, whatever the
    request and whatever the store refuses. The same holds for the
    committed rows when the transactions of several checkouts overlap,
    whatever the schedule. *)
Theorem checkout_keeps_stock_nonneg :
  (forall v req d f,
     stocks_nonneg (Db.rows d) ->
     stocks_nonneg (Db.rows (store_after (post_api_orders v req d f))) /\
     Forall (fun e => stocks_nonneg (event_after e))
            (issued (post_api_orders v req d f))) /\
  (forall v reqs d schedule,
     stocks_nonneg (Db.rows d) ->
     stocks_nonneg
       (Concurrent.committed (Concurrent.serve schedule (Concurrent.arrive v reqs d)))).
Proof.
  split.
  - intros v req d f Hd.
    destruct (run_preserves guarded_stmt stocks_nonneg (checkout v req) d (on_statement f))
      as [Hfin Hlog]; [apply exec_keeps_stocks_nonneg|apply checkout_guarded|done|].
    unfold post_api_orders, transaction.
    destruct (value _) as [m|[oid total]]; [done|].
    destruct (on_commit f); done.
  - intros v reqs d schedule Hd.
    apply ConcurrentFacts.serve_keeps_stocks_nonneg.
    split; [exact Hd|apply ConcurrentFacts.arrive_checkout_sessions].
Qed.

Lemma checkout_keeps_stock_nonneg_witness :
  stocks_nonneg (Db.rows Shop.shop) /\
  stocks_nonneg
    (Db.rows (store_after
                (post_api_orders First (Shop.buy [(1, 5); (2, 1)]) Shop.shop no_faults))) /\
  stocks_nonneg
    (Concurrent.committed
       (Concurrent.serve [0; 1; 0; 1; 0; 1; 0; 0; 0; 1; 1; 1]%nat
          (Concurrent.arrive Perbaikan [Shop.buy [(2, 1)]; Shop.buy [(2, 1)]]
                             Shop.shop))).
Proof.
  assert (H : stocks_nonneg (Db.rows Shop.shop)).
  { apply map_Forall_insert_2; [cbn; lia|].
    apply map_Forall_insert_2; [cbn; lia|]. apply map_Forall_empty. }
  destruct checkout_keeps_stock_nonneg as [Hone Hmany].
  split; [exact H|]. split.
  - apply (Hone First (Shop.buy [(1, 5); (2, 1)]) Shop.shop no_faults H).
  - apply (Hmany Perbaikan [Shop.buy [(2, 1)]; Shop.buy [(2, 1)]] Shop.shop
             [0; 1; 0; 1; 0; 1; 0; 0; 0; 1; 1; 1]%nat H).
Defined.

(** C10. Frame. A checkout, whatever its outcome, leaves the users and
    the categories as they were, neither adds nor removes a product,
    changes no column of a product other than [stock], and leaves the
    rows of the products it does not order as they were; this holds
    after each of its statements too, and none of its statements goes
    to the users or the categories table. *)
Theorem checkout_frame_holds v req d f :
  checkout_frame (Db.rows d) (Db.rows (store_after (post_api_orders v req d f))) /\
  (forall id, id ∉ map productId (items req) ->
     Db.products (Db.rows (store_after (post_api_orders v req d f))) !! id =
     Db.products (Db.rows d) !! id) /\
  Forall (fun e => checkout_frame (Db.rows d) (event_after e) /\
                   event_table e <> Db.Users /\ event_table e <> Db.Categories)
         (issued (post_api_orders v req d f)).
Proof.
  destruct (run_preserves checkout_stmt (checkout_frame (Db.rows d)) (checkout v req)
              d (on_statement f)) as [Hfin Hlog].
  { intros. by apply exec_keeps_frame. }
  { eapply issues_impl; [apply guarded_checkout_stmt|apply checkout_guarded]. }
  { apply frame_refl. }
  assert (Hst := run_log_issues checkout_stmt (checkout v req) d (on_statement f)).
  assert (Hl : Forall (fun e => checkout_frame (Db.rows d) (event_after e) /\
                   event_table e <> Db.Users /\ event_table e <> Db.Categories)
         (log (run (checkout v req) d (on_statement f)))).
  { rewrite Forall_forall in *. intros e He. split; [by apply Hlog|].
    specialize (Hst ltac:(eapply issues_impl;
                          [apply guarded_checkout_stmt|apply checkout_guarded]) e He).
    destruct e as [R s t]. by destruct s. }
  assert (Hrest : forall id, id ∉ map productId (items req) ->
     Db.products (Db.rows (store_after (post_api_orders v req d f))) !! id =
     Db.products (Db.rows d) !! id).
  { intros id Hid.
    destruct (answer (post_api_orders v req d f)) as [oid total|m] eqn:Ha.
    - destruct (post_api_orders_store _ _ _ _ _ _ Ha) as [Hv ->].
      destruct (checkout_inr _ _ _ _ _ _ Hv) as (_ & _ & _ & Hprod & _).
      rewrite Hprod, (ordered_absent _ _ Hid).
      destruct (Db.products (Db.rows d) !! id) as [p|]; [|done].
      cbn. by rewrite Z.sub_0_r, set_stock_stock.
    - by rewrite (failed_checkout_rows _ _ _ _ _ Ha). }
  split; [|split; [exact Hrest|]].
  - unfold post_api_orders, transaction.
    destruct (value _) as [m|[oid total]]; cbn; [apply frame_refl|].
    destruct (on_commit f); cbn; [apply frame_refl|done].
  - unfold post_api_orders, transaction.
    destruct (value _) as [m|[oid total]]; cbn; [done|].
    destruct (on_commit f); done.
Qed.

(** C2, as stated, fails in both halves. A request that names a product
    twice: each entry takes its units, so the stock left is not the
    stock before minus the quantity of one entry. And three units at
    0.10: the one order line is 0.10 times 3, which is 0.30, while the
    total returned is the number 0.1 * 3 of JavaScript, whose text is
    0.30000000000000004 and which is not the number 0.3. In the first
    revision the total returned is not a number at all. And the request
    of the scenario, three units of the product at stock 5 and price
    10.00, does not succeed when the store refuses a statement. *)
Lemma conservation_per_item_counterexample :
  (let r := post_api_orders Perbaikan (Shop.buy [(1, 1); (1, 1)]) Shop.shop no_faults in
   exists oid total p',
     answer r = Json200 oid total /\
     In (mkItem 1 1 None) (items (Shop.buy [(1, 1); (1, 1)])) /\
     Db.products (Db.rows Shop.shop) !! 1 = Some Shop.beras /\
     Db.products (Db.rows (store_after r)) !! 1 = Some p' /\
     Product.stock p' <> Product.stock Shop.beras - 1) /\
  (let r := post_api_orders Perbaikan (Shop.buy [(3, 3)]) Shop.warung no_faults in
   let line := OrderItem.mk 1 1 3 3 (Js.Cents 10) in
   exists total,
     answer r = Json200 1 total /\
     Db.orderItems (Db.rows (store_after r)) = {[1 := line]} /\
     lines_cents [line] = Some 30 /\
     Js.toString total = Js.TextDecimal 30000000000000004 (-17) /\
     total <> Js.parseFloat (Js.Text (Js.Cents 30))) /\
  (let r := post_api_orders First (Shop.buy [(1, 3)]) Shop.shop no_faults in
   let line := OrderItem.mk 1 1 1 3 (Js.Cents 1000) in
   answer r = Json200 1 Js.NaN /\
   Db.orderItems (Db.rows (store_after r)) = {[1 := line]} /\
   lines_cents [line] = Some 3000) /\
  answer (post_api_orders Perbaikan (Shop.buy [(1, 3)]) Shop.shop
            (mkFaults [Some "connection terminated"] None))
    = Json400 "connection terminated".
Proof.
  split; [|split; [|split; [|reflexivity]]].
  - eexists _, _, _. repeat split; try reflexivity.
    + by left.
    + cbn. lia.
  - eexists. split; [vm_compute; reflexivity|].
    split; [vm_compute; reflexivity|]. split; [reflexivity|].
    split; [vm_compute; reflexivity|]. vm_compute. discriminate.
  - split; [vm_compute; reflexivity|]. split; [vm_compute; reflexivity|]. reflexivity.
Qed.

(** C2, amended. Conservation. After a successful checkout the stock of
    every product is its stock before the call minus the units the
    request asks of it, all entries of that product added up; the order
    lines recorded are one per item, in the caller's order, with the
    quantity asked and the price of the product; and, in the revision
    that reads [product.price], the returned total is the sum of
    [price_at_time * quantity] over these lines, added up in their order
    in double precision. With a product at stock 5 and price 10.00, a
    request for 3 units that the store does not refuse succeeds with
    total 30 and leaves stock 2. *)
Theorem successful_checkout_conservation :
  (forall v req d f oid total,
     answer (post_api_orders v req d f) = Json200 oid total ->
     let d' := store_after (post_api_orders v req d f) in
     let ls := new_lines (Db.products (Db.rows d)) oid
                         (Db.order_items_id_seq (Db.seqs d)) (items req) in
     (forall id, Db.products (Db.rows d') !! id =
        (fun p => Product.set_stock (Product.stock p - ordered id (items req)) p)
          <$> Db.products (Db.rows d) !! id) /\
     Db.orderItems (Db.rows d') = put_lines ls (Db.orderItems (Db.rows d)) /\
     length ls = length (items req) /\
     (v = Perbaikan -> total = lines_total Perbaikan ls Js.zero)) /\
  (forall d id p name addr,
     sequences_ahead d ->
     Db.products (Db.rows d) !! id = Some p ->
     Product.stock p = 5 ->
     Product.price p = Js.Cents 1000 ->
     let r := post_api_orders Perbaikan (mkRequest name addr [mkItem id 3 None]) d
                              no_faults in
     answer r = Json200 (Db.orders_id_seq (Db.seqs d) + 1) (Js.of_Z 30) /\
     Db.products (Db.rows (store_after r)) !! id = Some (Product.set_stock 2 p)).
Proof.
  split.
  - intros v req d f oid total H.
    destruct (post_api_orders_store _ _ _ _ _ _ H) as [Hv ->].
    destruct (checkout_inr _ _ _ _ _ _ Hv)
      as (_ & _ & Hlen & Hprod & Hitems & _ & _ & _ & Htot).
    cbn zeta. repeat split; try done. by intros ->.
  - intros d id p name addr Hd Hp Hstock Hprice r.
    assert (Ha : answer r = Json200 (Db.orders_id_seq (Db.seqs d) + 1) (Js.of_Z 30)).
    { unfold r. rewrite post_api_orders_undisturbed by done.
      unfold undisturbed_answer. cbn [items first_short productId quantity new_lines].
      rewrite Hp, Hstock. cbn [Z.ltb Z.compare Pos.compare Pos.compare_cont].
      cbn [lines_total fold_left OrderItem.priceAtTime OrderItem.quantity].
      rewrite Hprice. reflexivity. }
    split; [done|].
    destruct (post_api_orders_store _ _ _ _ _ _ Ha) as [Hv Hst].
    destruct (checkout_inr _ _ _ _ _ _ Hv)
      as (_ & _ & _ & Hprod & _).
    unfold r. rewrite Hst, Hprod, Hp. cbn. rewrite bool_decide_eq_true_2 by done.
    rewrite Hstock. reflexivity.
Qed.

Lemma successful_checkout_conservation_witness :
  let r := post_api_orders Perbaikan (Shop.buy [(1, 3)]) Shop.shop no_faults in
  answer r = Json200 1 (Js.of_Z 30) /\
  Db.products (Db.rows (store_after r)) !! 1 = Some (Product.set_stock 2 Shop.beras) /\
  Db.products (Db.rows (store_after
      (post_api_orders First (Shop.buy [(1, 2); (2, 1); (1, 3)]) Shop.shop no_faults)))
    !! 1 = Some (Product.set_stock 0 Shop.beras).
Proof.
  destruct successful_checkout_conservation as [Hgen Hscen].
  assert (Hahead : sequences_ahead Shop.shop) by (split; intros id _; reflexivity).
  destruct (Hscen Shop.shop 1 Shop.beras "Ani" "Jl. Melati 1" Hahead
              eq_refl eq_refl eq_refl) as [Ha Hs].
  split; [exact Ha|]. split; [exact Hs|].
  destruct (Hgen First (Shop.buy [(1, 2); (2, 1); (1, 3)]) Shop.shop no_faults
              1 Js.NaN eq_refl) as (Hprod & _).
  rewrite Hprod. reflexivity.
Defined.

(** *** The total *)

Lemma mul_NaN x : Js.mul Js.NaN x = Js.NaN.
Proof. done. Qed.

Lemma add_NaN x : Js.add x Js.NaN = Js.NaN.
Proof. by destruct x. Qed.

Lemma NaN_add x : Js.add Js.NaN x = Js.NaN.
Proof. done. Qed.

Lemma lines_total_cons v l ls acc :
  lines_total v (l :: ls) acc =
    lines_total v ls
      (Js.add acc (Js.mul (unit_price v (OrderItem.priceAtTime l))
                          (Js.of_Z (OrderItem.quantity l)))).
Proof. done. Qed.

Lemma unit_price_First n : unit_price First n = Js.NaN.
Proof. done. Qed.

Lemma lines_total_First_NaN ls : lines_total First ls Js.NaN = Js.NaN.
Proof.
  induction ls as [|l ls IH]; [done|].
  by rewrite lines_total_cons, NaN_add.
Qed.

(** In the first revision the total of any order with at least one
    line is NaN: [product.price] is a string, its [.price] is undefined. *)
Lemma first_revision_total req d f oid total :
  items req <> [] ->
  answer (post_api_orders First req d f) = Json200 oid total ->
  total = Js.NaN.
Proof.
  intros Hne H.
  destruct (post_api_orders_store _ _ _ _ _ _ H) as [Hv _].
  destruct (checkout_inr _ _ _ _ _ _ Hv) as (_ & _ & Hlen & _ & _ & _ & _ & _ & ->).
  destruct (new_lines _ _ _ _) as [|l ls].
  - destruct (items req); [done|discriminate].
  - rewrite lines_total_cons, unit_price_First, mul_NaN, add_NaN.
    apply lines_total_First_NaN.
Qed.

(** A price sent by the client, or any other field of an item beyond
    [productId] and [quantity], changes nothing, in either revision. *)
Lemma client_price_is_ignored v req req' d f :
  customerName req = customerName req' ->
  address req = address req' ->
  map productId (items req) = map productId (items req') ->
  map quantity (items req) = map quantity (items req') ->
  post_api_orders v req d f = post_api_orders v req' d f.
Proof.
  intros Hc Ha Hp Hq. unfold post_api_orders, transaction.
  by rewrite (run_checkout_reads v req req' d (on_statement f)).
Qed.

(** C3. Price authority, in the first revision of [src/index.js]. The
    total is to be the stored price times the quantity, added up over
    the items. For product 1 at price 10.00 and a request for 3 units
    the handler answers with success and a total that is NaN, not 30;
    the revision marked "Perbaikan" answers 30. *)
Theorem first_revision_total_is_NaN :
  answer (post_api_orders First (Shop.buy [(1, 3)]) Shop.shop no_faults)
    = Json200 1 Js.NaN /\
  Order.totalAmount <$>
    Db.orders (Db.rows (store_after
      (post_api_orders First (Shop.buy [(1, 3)]) Shop.shop no_faults))) !! 1
    = Some Js.NumericNaN /\
  answer (post_api_orders Perbaikan (Shop.buy [(1, 3)]) Shop.shop no_faults)
    = Json200 1 (Js.of_Z 30).
Proof. repeat split. Qed.

(** C5. The stock error, in the first revision of [src/index.js]. An item
    whose product does not exist is to be refused with a message that
    falls back to a generic name. The first revision interpolates
    [product?.name] as it is and answers "Stok undefined kurang!"; the
    revision marked "Perbaikan" falls back to 'Produk'. *)
Theorem first_revision_names_missing_product_undefined :
  Db.products (Db.rows Shop.shop) !! 9 = None /\
  answer (post_api_orders First (Shop.buy [(9, 1)]) Shop.shop no_faults)
    = Json400 "Stok undefined kurang!" /\
  answer (post_api_orders Perbaikan (Shop.buy [(9, 1)]) Shop.shop no_faults)
    = Json400 "Stok Produk tidak mencukupi!".
Proof. repeat split. Qed.

(** The stock check of the later revision: with a store that refuses
    nothing, a request is refused with the stock error exactly when some
    item, at its turn, finds its product missing or short; the message
    carries the name of the product, or 'Produk' when there is no
    product or its name is empty. *)
Lemma stock_error_of_later_revision req d :
  sequences_ahead d ->
  (forall it, first_short (Db.products (Db.rows d)) (items req) = Some it ->
     answer (post_api_orders Perbaikan req d no_faults) =
       Json400 ("Stok " +:+
                match Db.products (Db.rows d) !! productId it with
                | Some p => if String.eqb (Product.name p) "" then "Produk"
                            else Product.name p
                | None => "Produk"
                end +:+ " tidak mencukupi!")) /\
  (first_short (Db.products (Db.rows d)) (items req) = None ->
     exists oid total, answer (post_api_orders Perbaikan req d no_faults) = Json200 oid total).
Proof.
  intros Hd. split.
  - intros it Hs. rewrite post_api_orders_undisturbed by done.
    unfold undisturbed_answer. by rewrite Hs.
  - intros Hs. rewrite post_api_orders_undisturbed by done.
    unfold undisturbed_answer. rewrite Hs. by eexists _, _.
Qed.

(** *** Requests the spec wants rejected before the store is touched *)

(** C6, as stated, fails: a request with no items is answered with
    success, after an order header has been inserted and updated. *)
Lemma empty_items_counterexample :
  let r := post_api_orders Perbaikan (Shop.buy []) Shop.shop no_faults in
  answer r = Json200 1 Js.zero /\
  map event_table (issued r) = [Db.Orders; Db.Orders] /\
  map event_statement (issued r) =
    [Statement (Db.InsertOrder "Ani" "Jl. Melati 1" (Js.TextDecimal 0 0) "pending");
     Statement (Db.UpdateOrderTotalAmount 1 (Js.TextDecimal 0 0))] /\
  Db.orders (Db.rows (store_after r)) !! 1 =
    Some (Order.mk 1 "Ani" "Jl. Melati 1" (Js.Cents 0) (Some "pending") (Some 1700000000)).
Proof. repeat split. Qed.

(** C6, amended. A request with an empty [items] list is not rejected:
    when the store refuses nothing it is answered with success and total
    0. The handler inserts the order header (total 0, status pending)
    and updates its total; it reads no product, records no order line
    and changes no stock. *)
Theorem empty_items_create_an_order v name addr d :
  orders_ahead d ->
  let req := mkRequest name addr [] in
  let r := post_api_orders v req d no_faults in
  let oid := Db.orders_id_seq (Db.seqs d) + 1 in
  answer r = Json200 oid Js.zero /\
  Db.orders (Db.rows (store_after r)) =
    <[oid := header req oid (Js.Cents 0) (Db.clock d)]> (Db.orders (Db.rows d)) /\
  Db.products (Db.rows (store_after r)) = Db.products (Db.rows d) /\
  Db.orderItems (Db.rows (store_after r)) = Db.orderItems (Db.rows d) /\
  map event_table (issued r) = [Db.Orders; Db.Orders] /\
  map event_statement (issued r) =
    [Statement (Db.InsertOrder name addr (Js.TextDecimal 0 0) "pending");
     Statement (Db.UpdateOrderTotalAmount oid (Js.TextDecimal 0 0))].
Proof.
  intros Hd.
  assert (Hfree : Db.orders (Db.rows d) !! (Db.orders_id_seq (Db.seqs d) + 1) = None)
    by (apply Hd; lia).
  cbn zeta. unfold post_api_orders, transaction, checkout, no_faults.
  cbn [bind await on_statement on_commit run Db.exec process_items items].
  rewrite (insert_row_inr _ _ _ _ _ Hfree). cbn.
  repeat split. by rewrite alter_insert_eq.
Qed.

Lemma empty_items_create_an_order_witness :
  answer (post_api_orders First (mkRequest "Budi" "Jl. Kenanga 2" []) Shop.shop no_faults)
    = Json200 1 Js.zero.
Proof.
  assert (Hahead : orders_ahead Shop.shop) by (intros id _; reflexivity).
  apply (empty_items_create_an_order First "Budi" "Jl. Kenanga 2" Shop.shop Hahead).
Defined.

(** C7, as stated, fails: a request for -2 units is answered with
    success; the order and its order line are recorded and the stock
    goes up by 2. *)
Lemma nonpositive_quantity_counterexample :
  let r := post_api_orders Perbaikan (Shop.buy [(1, -2)]) Shop.shop no_faults in
  answer r = Json200 1 (Js.of_Z (-20)) /\
  Db.orders (Db.rows Shop.shop) !! 1 = None /\
  Db.orders (Db.rows (store_after r)) !! 1 =
    Some (Order.mk 1 "Ani" "Jl. Melati 1" (Js.Cents (-2000)) (Some "pending")
                   (Some 1700000000)) /\
  Db.orderItems (Db.rows (store_after r)) !! 1 =
    Some (OrderItem.mk 1 1 1 (-2) (Js.Cents 1000)) /\
  Product.stock <$> Db.products (Db.rows (store_after r)) !! 1 = Some 7 /\
  Product.stock <$> Db.products (Db.rows Shop.shop) !! 1 = Some 5.
Proof. repeat split. Qed.

(** C7, amended. The handler has no check on the sign of a quantity; its
    only check is [stock < quantity]. A request whose one item asks for
    zero or fewer units of an existing product with stock at least zero
    is, when the store refuses nothing, answered with success: the
    order is recorded under a new id, with the customer, the address,
    the status 'pending' and the total returned as the column keeps it;
    the order line is recorded with that quantity; and the stock becomes
    [stock - quantity], which is the stock for 0 and more than the
    stock for a negative quantity. *)
Theorem nonpositive_quantity_is_accepted v name addr id q pr d p :
  sequences_ahead d ->
  Db.products (Db.rows d) !! id = Some p ->
  q <= 0 ->
  0 <= Product.stock p ->
  let req := mkRequest name addr [mkItem id q pr] in
  let r := post_api_orders v req d no_faults in
  let oid := Db.orders_id_seq (Db.seqs d) + 1 in
  let lid := Db.order_items_id_seq (Db.seqs d) + 1 in
  (exists total,
     answer r = Json200 oid total /\
     Db.orders (Db.rows (store_after r)) =
       <[oid := header req oid (stored_total total) (Db.clock d)]>
         (Db.orders (Db.rows d))) /\
  Db.orders (Db.rows d) !! oid = None /\
  Db.orderItems (Db.rows (store_after r)) !! lid =
    Some (OrderItem.mk lid oid id q (Product.price p)) /\
  Db.products (Db.rows (store_after r)) !! id =
    Some (Product.set_stock (Product.stock p - q) p) /\
  Product.stock p <= Product.stock p - q.
Proof.
  intros Hd Hp Hq Hs. cbn zeta.
  set (req := mkRequest name addr [mkItem id q pr]).
  assert (Ha : answer (post_api_orders v req d no_faults) = undisturbed_answer v req d)
    by (by apply post_api_orders_undisturbed).
  unfold undisturbed_answer in Ha. cbn [req items first_short productId quantity] in Ha.
  rewrite Hp in Ha.
  assert (Hlt : (Product.stock p <? q) = false) by (apply Z.ltb_ge; lia).
  rewrite Hlt in Ha.
  destruct (post_api_orders_store _ _ _ _ _ _ Ha) as [Hv Hst].
  destruct (checkout_inr _ _ _ _ _ _ Hv)
    as (_ & Hfree & _ & Hprod & Hitems & _ & _ & Horders & _).
  split; [eexists; split; [exact Ha|by rewrite Hst]|].
  split; [exact Hfree|]. rewrite Hst. split; [|split; [|lia]].
  - rewrite Hitems. cbn [req items new_lines productId quantity]. rewrite Hp.
    cbn. by rewrite lookup_insert_eq.
  - rewrite Hprod, Hp. cbn. rewrite bool_decide_eq_true_2 by done.
    do 2 f_equal. lia.
Qed.

(** No unit of the sugar: the order is recorded with total 0.00, and
    the stock stays. *)
Lemma nonpositive_quantity_is_accepted_witness :
  let r := post_api_orders Perbaikan (Shop.buy [(2, 0)]) Shop.shop no_faults in
  (exists total,
     answer r = Json200 1 total /\
     Db.orders (Db.rows (store_after r)) =
       <[1 := header (Shop.buy [(2, 0)]) 1 (stored_total total) 1700000000]> ∅) /\
  Db.orderItems (Db.rows (store_after r)) !! 1 =
    Some (OrderItem.mk 1 1 2 0 (Js.Cents 1250)) /\
  Db.products (Db.rows (store_after r)) !! 2 = Some (Product.set_stock (1 - 0) Shop.gula).
Proof.
  assert (Hahead : sequences_ahead Shop.shop) by (split; intros id _; reflexivity).
  destruct (nonpositive_quantity_is_accepted Perbaikan "Ani" "Jl. Melati 1" 2 0 None
              Shop.shop Shop.gula Hahead eq_refl)
    as (Horder & _ & Hline & Hstock & _); [cbn; lia|cbn; lia|].
  split; [exact Horder|]. split; [exact Hline|exact Hstock].
Defined.

(** *** A product named more than once *)

(** C8. The product row is fetched anew for every item. In a checkout
    that succeeds, the product lookups sent to the store are those of
    the items, one per item in the caller's order, every item was
    checked against the stock of its product less the units taken by
    the items before it, and the stock left is the stock before less
    the units of all its entries: two entries of one product are two
    decrements of the same row. And when
    one product is asked for twice and the second entry asks for more
    than the first has left, the request is refused with the stock
    error of that product, even where the second quantity alone would
    have been in stock. *)
Theorem repeated_product_sees_earlier_decrement :
  (forall v req d f oid total,
     answer (post_api_orders v req d f) = Json200 oid total ->
     lookups (issued (post_api_orders v req d f)) = map productId (items req) /\
     forall pre it post, items req = pre ++ it :: post ->
     exists p,
       Db.products (Db.rows d) !! productId it = Some p /\
       quantity it <= Product.stock p - ordered (productId it) pre /\
       Db.products (Db.rows (store_after (post_api_orders v req d f))) !! productId it =
         Some (Product.set_stock
                 (Product.stock p - ordered (productId it) (items req)) p)) /\
  (forall v name addr id q1 q2 pr1 pr2 d p,
     sequences_ahead d ->
     Db.products (Db.rows d) !! id = Some p ->
     q1 <= Product.stock p ->
     Product.stock p - q1 < q2 ->
     let r := post_api_orders v
                (mkRequest name addr [mkItem id q1 pr1; mkItem id q2 pr2]) d no_faults in
     answer r = Json400 (stock_message v (Some p)) /\
     Db.rows (store_after r) = Db.rows d).
Proof.
  split.
  - intros v req d f oid total H.
    destruct (post_api_orders_store _ _ _ _ _ _ H) as [Hv ->].
    split; [rewrite post_api_orders_issued; by eapply checkout_lookups|].
    intros pre it post Hsplit.
    destruct (checkout_checks _ _ _ _ _ _ Hv pre it post Hsplit) as (p & Hp & Hq).
    destruct (checkout_inr _ _ _ _ _ _ Hv) as (_ & _ & _ & Hprod & _).
    exists p. repeat split; try done. by rewrite Hprod, Hp.
  - intros v name addr id q1 q2 pr1 pr2 d p Hd Hp Hq1 Hq2 r.
    assert (Ha : answer r = Json400 (stock_message v (Some p))).
    { unfold r. rewrite post_api_orders_undisturbed by done.
      unfold undisturbed_answer. cbn [items first_short productId quantity].
      rewrite Hp. apply Z.ltb_ge in Hq1. rewrite Hq1.
      rewrite lookup_alter_eq, Hp. cbn [fmap option_fmap option_map Product.set_stock
                                       Product.stock].
      apply Z.ltb_lt in Hq2. rewrite Hq2. cbn [productId]. by rewrite Hp. }
    split; [done|].
    unfold r in *. unfold post_api_orders, transaction in *.
    destruct (value _) as [m|[oid total]]; [done|].
    destruct (on_commit no_faults); done.
Qed.

Lemma repeated_product_sees_earlier_decrement_witness :
  answer (post_api_orders Perbaikan (Shop.buy [(1, 3); (1, 3)]) Shop.shop no_faults)
    = Json400 "Stok Beras tidak mencukupi!" /\
  Db.products (Db.rows (store_after
      (post_api_orders Perbaikan (Shop.buy [(1, 2); (1, 3)]) Shop.shop no_faults))) !! 1
    = Some (Product.set_stock 0 Shop.beras).
Proof.
  destruct repeated_product_sees_earlier_decrement as [Hok Hshort].
  assert (Hahead : sequences_ahead Shop.shop) by (split; intros id _; reflexivity).
  split.
  - apply (Hshort Perbaikan "Ani" "Jl. Melati 1" 1 3 3 None None Shop.shop Shop.beras
             Hahead eq_refl); cbn; lia.
  - destruct (Hok Perbaikan (Shop.buy [(1, 2); (1, 3)]) Shop.shop no_faults 1
                (Js.of_Z 50) eq_refl) as [_ Hchecks].
    destruct (Hchecks [mkItem 1 2 None] (mkItem 1 3 None) [] eq_refl)
      as (p & Hp & _ & Hafter).
    injection Hp as <-. exact Hafter.
Defined.

(** *** Two requests for the last unit *)




(* ===================================================================== *)
(** ** The other routes: login, register, the middleware *)
(* ===================================================================== *)

Module TextFacts.

Import Text.

Lemma split_spaceless s : spaceless s = true -> split " " s = [s].
Proof.
  induction s as [|c s IH]; cbn [split spaceless]; [done|].
  intros [Hc Hs]%andb_prop. apply negb_true_iff in Hc. rewrite Hc.
  by rewrite (IH Hs).
Qed.

Lemma split_word w rest :
  spaceless w = true -> split " " (w +:+ " " +:+ rest) = w :: split " " rest.
Proof.
  induction w as [|c w IH]; [done|].
  change (String c w +:+ " " +:+ rest) with (String c (w +:+ " " +:+ rest)).
  cbn [split spaceless].
  intros [Hc Hw]%andb_prop. apply negb_true_iff in Hc. rewrite Hc.
  by rewrite (IH Hw).
Qed.

Lemma append_empty s : s +:+ "" = s.
Proof.
  induction s as [|c s IH]; [done|].
  change (String c s +:+ "") with (String c (s +:+ "")). by rewrite IH.
Qed.

Lemma split_nonempty sep s : split sep s <> [].
Proof.
  destruct s as [|c s]; cbn [split]; [done|].
  destruct (Ascii.eqb c sep); [done|]. by destruct (split sep s).
Qed.

(** *** parseInt *)








Lemma parseInt_blank ws :
  Forall (fun c => is_whitespace c = true) ws -> parseInt ws = None.
Proof.
  intros Hws. unfold parseInt.
  assert (trim_start ws = []) as ->.
  { induction Hws as [|c ws Hc _ IH]; [done|]. cbn [trim_start]. by rewrite Hc. }
  done.
Qed.

(** *** The name of the object *)

Lemma replace_whitespace_clean name :
  Forall (fun c => is_whitespace c = false) (replace_whitespace name).
Proof.
  unfold replace_whitespace. apply Forall_fmap, Forall_true. intros c. cbn.
  by destruct (is_whitespace c) eqn:Hc.
Qed.

Lemma replace_whitespace_id name :
  Forall (fun c => is_whitespace c = false) name -> replace_whitespace name = name.
Proof.
  intros H. unfold replace_whitespace.
  induction H as [|c name Hc _ IH]; [done|]. cbn [map]. by rewrite Hc, IH.
Qed.

Lemma clean_String c s : is_whitespace (N_of_ascii c) = false -> clean s -> clean (String c s).
Proof. intros Hc Hs. by constructor. Qed.

Lemma clean_app s t : clean s -> clean t -> clean (s +:+ t).
Proof.
  intros Hs Ht. induction s as [|c s IH]; [done|].
  inversion_clear Hs. change (String c s +:+ t) with (String c (s +:+ t)).
  apply clean_String; auto.
Qed.

Lemma pretty_N_char_clean x : is_whitespace (N_of_ascii (pretty_N_char x)) = false.
Proof. unfold pretty_N_char. by repeat case_match. Qed.

Lemma pretty_N_go_clean x : forall s, clean s -> clean (pretty_N_go x s).
Proof.
  induction (N.lt_wf_0 x) as [x _ IH]. intros s Hs.
  destruct (decide (x = 0)%N) as [->|Hx]; [by rewrite pretty_N_go_0|].
  rewrite pretty_N_go_step by lia. apply IH.
  - apply N.div_lt; lia.
  - apply clean_String; [apply pretty_N_char_clean|done].
Qed.

Lemma pretty_Z_clean (z : Z) : clean (pretty z).
Proof.
  assert (HN : forall n : N, clean (pretty n)).
  { intros n. unfold pretty, pretty_N. case_decide; [by repeat constructor|].
    apply pretty_N_go_clean. constructor. }
  destruct z as [|p|p]; unfold pretty, pretty_Z.
  - by repeat constructor.
  - apply HN.
  - apply clean_app; [by repeat constructor|apply HN].
Qed.

End TextFacts.

Module AuthFacts.

Import Tx TxFacts Lib Route Auth.

(** *** Finding a user by name *)

Lemma first_user_Some name (us : gmap Z User.row) u :
  Db.first_user name us = Some u ->
  User.username u = name /\ exists i, us !! i = Some u.
Proof.
  unfold Db.first_user. intros H. apply head_Some in H as [l Hl].
  assert (Hu : u ∈ filter (fun u => bool_decide (User.username u = name))
                         ((map_to_list us).*2)) by (rewrite Hl; left).
  apply list_elem_of_filter in Hu as [Hn Hu].
  apply bool_decide_unpack in Hn.
  apply list_elem_of_fmap in Hu as ([i u'] & -> & Hiu).
  apply elem_of_map_to_list in Hiu. split; [done|]. by exists i.
Qed.

Lemma first_user_None name (us : gmap Z User.row) :
  Db.first_user name us = None <->
  forall i u, us !! i = Some u -> User.username u <> name.
Proof.
  unfold Db.first_user. rewrite head_None. split.
  - intros Hnil i u Hiu Hname.
    eapply (filter_nil_not_elem_of _ _ u Hnil).
    + by apply bool_decide_pack.
    + apply list_elem_of_fmap. exists (i, u). split; [done|].
      by apply elem_of_map_to_list.
  - intros Hall.
    destruct (filter _ _) as [|u l] eqn:Hl; [done|].
    assert (Hu : u ∈ filter (fun u => bool_decide (User.username u = name))
                           ((map_to_list us).*2)) by (rewrite Hl; left).
    apply list_elem_of_filter in Hu as [Hn Hu].
    apply bool_decide_unpack in Hn.
    apply list_elem_of_fmap in Hu as ([i u'] & -> & Hiu).
    apply elem_of_map_to_list in Hiu. by destruct (Hall i u' Hiu).
Qed.

Lemma first_user_unique (us : gmap Z User.row) i u :
  usernames_unique us -> us !! i = Some u ->
  Db.first_user (User.username u) us = Some u.
Proof.
  intros Huniq Hiu.
  destruct (Db.first_user (User.username u) us) as [u'|] eqn:Hf.
  - apply first_user_Some in Hf as [Hname [j Hj]].
    assert (j = i) as -> by (by eapply Huniq).
    congruence.
  - rewrite first_user_None in Hf. by destruct (Hf i u Hiu).
Qed.

Lemma store_eta (d : Db.store) : Db.mkStore (Db.rows d) (Db.seqs d) (Db.clock d) = d.
Proof. by destruct d. Qed.

(** What the lookup of the route finds, when it is answered at all. *)
Lemma run_find_user {A} name (k : option User.row -> tx A) d fs :
  refused fs = None ->
  run (Exec (Db.FindFirstUser name) k) d fs =
    logged (Issued (Db.FindFirstUser name) (Db.rows d))
           (run (k (Db.first_user name (Db.users (Db.rows d)))) d (tail fs)).
Proof.
  intros Hfs. rewrite (run_Exec_accepted _ _ _ _ Hfs).
  cbn [Db.exec Db.returned Db.written Db.seqs_after Db.apply_writes fold_left].
  by rewrite store_eta.
Qed.

(** The answer and the store of the login route in terms of the lookup. *)
Lemma post_api_login_run `{Bcrypt} `{Jwt} now name pw d fs :
  store_left (post_api_login now name pw d fs) = d /\
  sent (post_api_login now name pw d fs) =
    match refused fs with
    | Some _ => Login500
    | None =>
        match Db.first_user name (Db.users (Db.rows d)) with
        | None => Login401
        | Some u =>
            if compareSync pw (User.password u)
            then Login200 (sign now (mkPayload (User.id u) (User.role u)))
            else Login401
        end
    end.
Proof.
  unfold post_api_login, handle, login. cbn [bind await].
  destruct (refused fs) as [m|] eqn:Hfs.
  - by rewrite (run_Exec_refused _ _ _ _ _ Hfs).
  - rewrite (run_find_user _ _ _ _ Hfs).
    destruct (Db.first_user name _) as [u|]; [|done].
    by destruct (compareSync pw (User.password u)).
Qed.

(** X4. Login. With usernames that are unique and a store that answers,
    [POST /api/login] answers 401 'Login Gagal' when no user has the
    name, and for the user of that name it answers with a token for the
    id and role of the user when [compareSync] accepts the password and
    with the same 401 when it does not. *)
Theorem login_answer `{Bcrypt} `{Jwt} now name pw d :
  usernames_unique (Db.users (Db.rows d)) ->
  let r := post_api_login now name pw d [] in
  ((forall i u, Db.users (Db.rows d) !! i = Some u -> User.username u <> name) ->
   sent r = Login401) /\
  (forall i u, Db.users (Db.rows d) !! i = Some u -> User.username u = name ->
     sent r = if compareSync pw (User.password u)
              then Login200 (sign now (mkPayload (User.id u) (User.role u)))
              else Login401).
Proof.
  intros Huniq r. unfold r.
  destruct (post_api_login_run now name pw d []) as [_ ->]. cbn [refused].
  split.
  - intros Hnone. apply first_user_None in Hnone. by rewrite Hnone.
  - intros i u Hiu <-. by rewrite (first_user_unique _ i u Huniq Hiu).
Qed.

Lemma shop_usernames_unique : usernames_unique (Db.users (Db.rows Shop.shop)).
Proof.
  intros i j u u' Hi Hj _. cbn in Hi, Hj.
  apply lookup_singleton_Some in Hi as [<- _].
  by apply lookup_singleton_Some in Hj as [<- _].
Qed.

Lemma login_answer_witness :
  sent (@post_api_login Toy.bcrypt Toy.jwt 1700000000 "admin" "hash" Shop.shop [])
    = Login200 "eyJhbGciOi.admin.sig" /\
  sent (@post_api_login Toy.bcrypt Toy.jwt 1700000000 "admin" "admin123" Shop.shop [])
    = Login401.
Proof.
  destruct (@login_answer Toy.bcrypt Toy.jwt 1700000000 "admin" "hash" Shop.shop
              shop_usernames_unique) as [_ Hok].
  destruct (@login_answer Toy.bcrypt Toy.jwt 1700000000 "admin" "admin123" Shop.shop
              shop_usernames_unique) as [_ Hno].
  split.
  - rewrite (Hok 1 Shop.admin eq_refl eq_refl). reflexivity.
  - rewrite (Hno 1 Shop.admin eq_refl eq_refl). reflexivity.
Defined.

(** X5. Login hands out a token only to a checked user, and writes
    nothing. Whatever the store refuses, the store after
    [POST /api/login] is the store before it; and when the route
    answers with a token, a user of that name exists, [compareSync] has
    accepted the password against the stored hash of that user, and the
    token is signed for the id and role of that user. *)
Theorem login_token_only_after_check `{Bcrypt} `{Jwt} now name pw d fs :
  store_left (post_api_login now name pw d fs) = d /\
  forall token, sent (post_api_login now name pw d fs) = Login200 token ->
    exists i u, Db.users (Db.rows d) !! i = Some u /\
                User.username u = name /\
                compareSync pw (User.password u) = true /\
                token = sign now (mkPayload (User.id u) (User.role u)).
Proof.
  destruct (post_api_login_run now name pw d fs) as [Hst Hsent].
  split; [done|]. intros token. rewrite Hsent.
  destruct (refused fs); [done|].
  destruct (Db.first_user name _) as [u|] eqn:Hu; [|done].
  destruct (compareSync pw (User.password u)) eqn:Hc; [|done].
  intros [= <-]. apply first_user_Some in Hu as [Hname [i Hi]].
  by exists i, u.
Qed.

Lemma login_token_only_after_check_witness :
  exists i u, Db.users (Db.rows Shop.shop) !! i = Some u /\
              User.username u = "admin" /\
              @compareSync Toy.bcrypt "hash" (User.password u) = true /\
              "eyJhbGciOi.admin.sig"
                = @sign Toy.jwt 1700000000 (mkPayload (User.id u) (User.role u)).
Proof.
  destruct (@login_token_only_after_check Toy.bcrypt Toy.jwt 1700000000 "admin" "hash"
              Shop.shop [None]) as [_ Hsound].
  apply Hsound. reflexivity.
Defined.

(** *** Register *)

(** The store once [InsertUser] has gone through. *)
Lemma first_user_insert_fresh (us : gmap Z User.row) id u :
  us !! id = None ->
  Db.first_user (User.username u) us = None ->
  Db.first_user (User.username u) (<[id := u]> us) = Some u.
Proof.
  intros Hid Hnone. rewrite first_user_None in Hnone.
  destruct (Db.first_user (User.username u) (<[id := u]> us)) as [u'|] eqn:Hf.
  - apply first_user_Some in Hf as [Hname [j Hj]].
    destruct (decide (j = id)) as [->|Hne].
    + rewrite lookup_insert_eq in Hj. congruence.
    + rewrite lookup_insert_ne in Hj by done. by destruct (Hnone j u' Hj).
  - rewrite first_user_None in Hf.
    by destruct (Hf id u (lookup_insert_eq _ _ _)).
Qed.

Lemma post_api_register_run `{Bcrypt} salt name pw d fs :
  let r := post_api_register salt name pw d fs in
  let id := Db.users_id_seq (Db.seqs d) + 1 in
  let sq' := Db.mkSequences id (Db.categories_id_seq (Db.seqs d))
               (Db.products_id_seq (Db.seqs d)) (Db.orders_id_seq (Db.seqs d))
               (Db.order_items_id_seq (Db.seqs d)) in
  match refused fs with
  | Some m => sent r = Register500 ("Gagal daftar: " +:+ m) /\ store_left r = d
  | None =>
      match Db.first_user name (Db.users (Db.rows d)) with
      | Some _ => sent r = Register400 /\ store_left r = d
      | None =>
          match refused (tail fs) with
          | Some m => sent r = Register500 ("Gagal daftar: " +:+ m) /\ store_left r = d
          | None =>
              match Db.users (Db.rows d) !! id with
              | Some _ =>
                  sent r = Register500 ("Gagal daftar: " +:+ Db.duplicate_key) /\
                  store_left r = Db.mkStore (Db.rows d) sq' (Db.clock d)
              | None =>
                  sent r = Register200 /\
                  store_left r =
                    Db.mkStore
                      (Db.apply_write
                         (Db.PutUser (User.mk id name (hashSync pw salt) (Some "admin")))
                         (Db.rows d))
                      sq' (Db.clock d)
              end
          end
      end
  end.
Proof.
  cbn zeta. unfold post_api_register, handle, register. cbn [bind await].
  destruct (refused fs) as [m|] eqn:Hfs.
  - by rewrite (run_Exec_refused _ _ _ _ _ Hfs).
  - rewrite (run_find_user _ _ _ _ Hfs).
    destruct (Db.first_user name _) as [u|]; [done|].
    cbn [bind logged sent store_left value final].
    destruct (refused (tail fs)) as [m|] eqn:Hfs'.
    + by rewrite (run_Exec_refused _ _ _ _ _ Hfs').
    + rewrite (run_Exec_accepted _ _ _ _ Hfs'). cbn [Db.exec].
      unfold Db.insert_row.
      by destruct (Db.users (Db.rows d) !! _).
Qed.

(** X6. Register refuses a name that is taken. When a user of the name
    exists and the store answers the lookup, [POST /api/register]
    answers 400 'Username sudah digunakan' and the store is as it was:
    no user is added or changed, whatever the password sent. *)
Theorem register_taken_username `{Bcrypt} salt name pw d fs i u :
  Db.users (Db.rows d) !! i = Some u ->
  User.username u = name ->
  refused fs = None ->
  sent (post_api_register salt name pw d fs) = Register400 /\
  store_left (post_api_register salt name pw d fs) = d.
Proof.
  intros Hiu Hname Hfs.
  assert (Hrun := post_api_register_run salt name pw d fs). cbn zeta in Hrun.
  rewrite Hfs in Hrun.
  destruct (Db.first_user name _) as [u'|] eqn:Hf; [done|].
  rewrite first_user_None in Hf. by destruct (Hf i u Hiu).
Qed.

Lemma register_taken_username_witness :
  sent (@post_api_register Toy.bcrypt "$2a$10$" "admin" "secret" Shop.shop [])
    = Register400 /\
  store_left (@post_api_register Toy.bcrypt "$2a$10$" "admin" "secret" Shop.shop [])
    = Shop.shop.
Proof.
  apply (@register_taken_username Toy.bcrypt "$2a$10$" "admin" "secret" Shop.shop []
           1 Shop.admin); reflexivity.
Defined.





(** X9. Register keeps usernames unique. Whatever the store refuses and
    whatever the route answers, if no two users shared a name before
    [POST /api/register], no two share one after it. *)
Theorem register_keeps_usernames_unique `{Bcrypt} salt name pw d fs :
  usernames_unique (Db.users (Db.rows d)) ->
  usernames_unique (Db.users (Db.rows (store_left (post_api_register salt name pw d fs)))).
Proof.
  intros Huniq.
  assert (Hrun := post_api_register_run salt name pw d fs). cbn zeta in Hrun.
  destruct (refused fs); [by destruct Hrun as [_ ->]|].
  destruct (Db.first_user name _) eqn:Hf; [by destruct Hrun as [_ ->]|].
  destruct (refused (tail fs)); [by destruct Hrun as [_ ->]|].
  destruct (Db.users (Db.rows d) !! _) eqn:Hid; [by destruct Hrun as [_ ->]|].
  destruct Hrun as [_ ->]. cbn [Db.rows Db.apply_write Db.users User.id].
  rewrite first_user_None in Hf.
  intros i j u u' Hi Hj Hname.
  destruct (decide (i = Db.users_id_seq (Db.seqs d) + 1)) as [->|Hi'];
    destruct (decide (j = Db.users_id_seq (Db.seqs d) + 1)) as [->|Hj']; [done|..].
  - rewrite lookup_insert_eq in Hi. rewrite lookup_insert_ne in Hj by done.
    injection Hi as <-. cbn in Hname. by destruct (Hf j u' Hj).
  - rewrite lookup_insert_eq in Hj. rewrite lookup_insert_ne in Hi by done.
    injection Hj as <-. cbn in Hname. by destruct (Hf i u Hi).
  - rewrite lookup_insert_ne in Hi, Hj by done. by eapply Huniq.
Qed.

Lemma register_keeps_usernames_unique_witness :
  usernames_unique
    (Db.users (Db.rows (store_left
       (@post_api_register Toy.bcrypt "$2a$10$" "budi" "rahasia" Shop.shop [])))).
Proof.
  apply (@register_keeps_usernames_unique Toy.bcrypt "$2a$10$" "budi" "rahasia"
           Shop.shop [] shop_usernames_unique).
Defined.

(** *** The middleware *)

(** X10. The middleware reads the second word of the header and nothing
    else. For a header made of a first word, a space, a token without a
    space, and then either nothing or a space and anything, the request
    goes on to the handler exactly when [jwt.verify] accepts the token,
    and is answered 403 'Invalid Token' otherwise: the first word (the
    scheme) is not looked at, and what follows the token is dropped. *)
Theorem auth_reads_second_word `{Jwt} now scheme token more :
  Text.spaceless scheme = true ->
  Text.spaceless token = true ->
  authMiddleware now
    (Some (scheme +:+ " " +:+ token +:+
           match more with Some rest => " " +:+ rest | None => "" end)) =
    match verify now token with
    | Some user => AuthNext user
    | None => Auth403
    end.
Proof.
  intros Hs Ht. unfold authMiddleware.
  assert (Hne : String.eqb (scheme +:+ " " +:+ token +:+
                 match more with Some rest => " " +:+ rest | None => "" end) "" = false).
  { by destruct scheme. }
  rewrite Hne. rewrite (TextFacts.split_word _ _ Hs).
  destruct more as [rest|].
  - by rewrite (TextFacts.split_word _ _ Ht).
  - rewrite TextFacts.append_empty.
    by rewrite (TextFacts.split_spaceless _ Ht).
Qed.

Lemma auth_reads_second_word_witness :
  @authMiddleware Toy.jwt 1700000500 (Some "Basic eyJhbGciOi.admin.sig trailing words")
    = AuthNext Toy.admin_payload /\
  @authMiddleware Toy.jwt 1700000500 (Some "Bearer forged") = Auth403.
Proof.
  split.
  - apply (@auth_reads_second_word Toy.jwt 1700000500 "Basic" "eyJhbGciOi.admin.sig"
             (Some "trailing words")); reflexivity.
  - apply (@auth_reads_second_word Toy.jwt 1700000500 "Bearer" "forged" None);
      reflexivity.
Defined.

End AuthFacts.

(* ===================================================================== *)
(** ** The other routes: the catalogue *)
(* ===================================================================== *)

Module CatalogFacts.

Import Tx TxFacts Lib Route Catalog.

#[local] Instance by_id_desc_trans : Transitive by_id_desc.
Proof. intros p q r. unfold by_id_desc. lia. Qed.

#[local] Instance by_id_desc_total : Total by_id_desc.
Proof. intros p q. unfold by_id_desc. lia. Qed.

Lemma products_desc_sorted ps : StronglySorted by_id_desc (Db.products_desc ps).
Proof. unfold Db.products_desc. apply (StronglySorted_merge_sort by_id_desc). Qed.

Lemma products_desc_perm ps : Db.products_desc ps ≡ₚ (map_to_list ps).*2.
Proof. unfold Db.products_desc. apply merge_sort_Permutation. Qed.


(** X12. The listing. When the store answers, [GET /api/products]
    answers with every product row exactly once (the rows sent are a
    permutation of the rows of the table), the highest id first and the
    ids never rising, and leaves the store as it was. *)
Theorem listing_sorted_and_complete d fs :
  refused fs = None ->
  exists data,
    sent (get_api_products d fs) = List200 data /\
    StronglySorted (fun p q => Product.id q <= Product.id p) data /\
    data ≡ₚ (map_to_list (Db.products (Db.rows d))).*2 /\
    store_left (get_api_products d fs) = d.
Proof.
  intros Hfs. exists (Db.products_desc (Db.products (Db.rows d))).
  unfold get_api_products, handle, list_products. cbn [bind await].
  rewrite (run_Exec_accepted _ _ _ _ Hfs).
  cbn [Db.exec Db.returned Db.written Db.seqs_after Db.apply_writes fold_left
       bind run logged sent store_left value final].
  repeat split.
  - apply products_desc_sorted.
  - apply products_desc_perm.
  - by destruct d.
Qed.

Lemma listing_sorted_and_complete_witness :
  exists data,
    sent (get_api_products Shop.shop [None]) = List200 data /\
    StronglySorted (fun p q => Product.id q <= Product.id p) data /\
    data ≡ₚ (map_to_list (Db.products (Db.rows Shop.shop))).*2 /\
    store_left (get_api_products Shop.shop [None]) = Shop.shop.
Proof. apply (listing_sorted_and_complete Shop.shop [None]). reflexivity. Defined.


(** *** The upload *)





(** X13. A failed insert leaves the uploaded object behind. The handler
    uploads the image before it inserts the product and has no clean-up:
    when the storage takes the file and the insert then fails, because
    the store does not read the price, because the stock or the category
    is not a number ([parseInt] gives NaN), or because the store refuses
    the statement, the route answers 500 with the message of the error,
    the rows of the store are as they were, and the object stays in the
    bucket. *)
Theorem upload_leaves_object_when_insert_fails `{Supabase} `{Driver}
    b f now bucket d fs m :
  image b = Some (FormFile f) ->
  bucket !! fileName now f = None ->
  insert_values b = inl m \/
  ((exists v, insert_values b = inr v) /\ refused fs = Some m) ->
  let r := upload b now None bucket d fs in
  upload_sent r = Upload500 m /\
  bucket_left r !! fileName now f = Some (mkObject (file_type f) (file_content f)) /\
  Db.rows (upload_store_left r) = Db.rows d.
Proof.
  intros Himg Hfree Hfail. cbn zeta. unfold upload, upload_object.
  rewrite Himg, Hfree.
  destruct Hfail as [Hv|[[[[p s] c] Hv] Hfs]]; rewrite Hv.
  - cbn. by rewrite lookup_insert_eq.
  - unfold await. rewrite (run_Exec_refused _ _ _ _ _ Hfs). cbn.
    by rewrite lookup_insert_eq.
Qed.

(** A stock that is no number, and a category that the store refuses. *)
Lemma upload_leaves_object_when_insert_fails_witness :
  (let r := @upload Toy.supabase Toy.driver (Toy.kopi "banyak") 1700000000123 None ∅
                    Shop.shop [] in
   upload_sent r = Upload500 "invalid input syntax for type integer: NaN" /\
   bucket_left r !! fileName 1700000000123 Toy.photo
     = Some (mkObject "image/png" [137; 80; 78; 71]%N) /\
   Db.rows (upload_store_left r) = Db.rows Shop.shop) /\
  (let r := @upload Toy.supabase Toy.driver (Toy.kopi "12") 1700000000123 None ∅
                    Shop.shop [Some "violates foreign key constraint"] in
   upload_sent r = Upload500 "violates foreign key constraint" /\
   bucket_left r !! fileName 1700000000123 Toy.photo
     = Some (mkObject "image/png" [137; 80; 78; 71]%N) /\
   Db.rows (upload_store_left r) = Db.rows Shop.shop).
Proof.
  split.
  - apply (@upload_leaves_object_when_insert_fails Toy.supabase Toy.driver
             (Toy.kopi "banyak") Toy.photo 1700000000123 ∅ Shop.shop []
             "invalid input syntax for type integer: NaN" eq_refl (lookup_empty _)).
    left. reflexivity.
  - apply (@upload_leaves_object_when_insert_fails Toy.supabase Toy.driver
             (Toy.kopi "12") Toy.photo 1700000000123 ∅ Shop.shop
             [Some "violates foreign key constraint"]
             "violates foreign key constraint" eq_refl (lookup_empty _)).
    right. split; [by eexists|reflexivity].
Defined.



(** X11. The upload route stores nothing without a verified token and an
    image file. Whatever the request, either the bucket and the store
    after [POST /api/products] are those before it, or the
    Authorization header had a second word that [jwt.verify] accepted
    and the field [image] of the body was a file. A request without the
    header, or with an empty one, is answered 401; one whose header has
    no space is answered 403. *)
Theorem upload_route_gate `{Jwt} `{Supabase} `{Driver}
    authorization b now error bucket d fs :
  let r := post_api_products authorization b now error bucket d fs in
  ((bucket_left r = bucket /\ upload_store_left r = d) \/
   (exists h token user f,
      authorization = Some h /\
      Text.split " " h !! 1%nat = Some token /\
      verify now token = Some user /\
      image b = Some (FormFile f))) /\
  (authorization = None \/ authorization = Some "" -> upload_sent r = Upload401) /\
  (forall h, authorization = Some h -> h <> "" -> Text.spaceless h = true ->
             upload_sent r = Upload403).
Proof.
  cbn zeta. unfold post_api_products, Auth.authMiddleware. repeat split.
  - destruct authorization as [h|]; [|by left].
    destruct (String.eqb h ""); [by left|].
    destruct (Text.split " " h !! 1%nat) as [token|] eqn:Htok; [|by left].
    destruct (verify now token) as [user|] eqn:Hver; [|by left].
    unfold upload.
    destruct (image b) as [[s|f]|] eqn:Himg; [by left| |by left].
    right. by exists h, token, user, f.
  - by intros [->| ->].
  - intros h -> Hne Hsp.
    apply String.eqb_neq in Hne. rewrite Hne.
    by rewrite (TextFacts.split_spaceless _ Hsp).
Qed.

Lemma upload_route_gate_witness :
  upload_sent (@post_api_products Toy.jwt Toy.supabase Toy.driver None (Toy.kopi "12")
                 1700000000123 None ∅ Shop.shop []) = Upload401 /\
  upload_sent (@post_api_products Toy.jwt Toy.supabase Toy.driver
                 (Some "eyJhbGciOi.admin.sig") (Toy.kopi "12")
                 1700000000123 None ∅ Shop.shop []) = Upload403.
Proof.
  split.
  - destruct (@upload_route_gate Toy.jwt Toy.supabase Toy.driver None (Toy.kopi "12")
                1700000000123 None ∅ Shop.shop []) as (_ & H401 & _).
    apply H401. by left.
  - destruct (@upload_route_gate Toy.jwt Toy.supabase Toy.driver
                (Some "eyJhbGciOi.admin.sig") (Toy.kopi "12") 1700000000123 None ∅
                Shop.shop []) as (_ & _ & H403).
    by apply (H403 "eyJhbGciOi.admin.sig").
Defined.

(** X16. The name of the uploaded object. The name is [prod_], the time
    in decimal digits, an underscore, and the name of the file with
    every white space character replaced by an underscore: it has no
    white space in it, it is as long as the prefix and the file name
    together, and a file name without white space is taken over as it
    is. *)
Theorem fileName_without_whitespace now f :
  Forall (fun c => Text.is_whitespace c = false) (fileName now f) /\
  length (fileName now f) =
    (length (Text.units ("prod_" +:+ pretty now +:+ "_")) + length (file_name f))%nat /\
  (Forall (fun c => Text.is_whitespace c = false) (file_name f) ->
   fileName now f = Text.units ("prod_" +:+ pretty now +:+ "_") ++ file_name f).
Proof.
  unfold fileName. repeat split.
  - apply Forall_app. split; [|apply TextFacts.replace_whitespace_clean].
    apply TextFacts.clean_app; [by repeat constructor|].
    apply TextFacts.clean_app; [apply TextFacts.pretty_Z_clean|by repeat constructor].
  - rewrite length_app. unfold Text.replace_whitespace. by rewrite length_map.
  - intros Hclean. by rewrite TextFacts.replace_whitespace_id.
Qed.

Lemma fileName_without_whitespace_witness :
  fileName 1700000000123 (mkFile (Text.units "kopi.png") "image/png" [])
    = Text.units "prod_1700000000123_kopi.png".
Proof.
  destruct (fileName_without_whitespace 1700000000123
              (mkFile (Text.units "kopi.png") "image/png" [])) as (_ & _ & Hid).
  rewrite Hid; [reflexivity|].
  by repeat constructor.
Defined.

End CatalogFacts.

(* ===================================================================== *)
(** ** The seed script *)
(* ===================================================================== *)

Module SeedFacts.

Import Lib Seed.

(** What one run of the script leaves. *)
Lemma seed_run `{Bcrypt} salt d :
  categories_ahead d ->
  Db.users (Db.rows d) !! (Db.users_id_seq (Db.seqs d) + 1) = None ->
  let u := Db.users_id_seq (Db.seqs d) in
  let c := Db.categories_id_seq (Db.seqs d) in
  seed salt d =
    inr (Db.mkStore
           (Db.mkTables
              match Db.first_user "admin" (Db.users (Db.rows d)) with
              | None =>
                  <[u + 1 := User.mk (u + 1) "admin" (hashSync "admin123" salt)
                                     (Some "admin")]> (Db.users (Db.rows d))
              | Some _ => Db.users (Db.rows d)
              end
              (<[c + 3 := Category.mk (c + 3) "Pakaian"]>
                 (<[c + 2 := Category.mk (c + 2) "Minuman"]>
                    (<[c + 1 := Category.mk (c + 1) "Makanan"]>
                       (Db.categories (Db.rows d)))))
              (Db.products (Db.rows d)) (Db.orders (Db.rows d))
              (Db.orderItems (Db.rows d)))
           (Db.mkSequences (u + 1) (c + 3) (Db.products_id_seq (Db.seqs d))
                           (Db.orders_id_seq (Db.seqs d))
                           (Db.order_items_id_seq (Db.seqs d)))
           (Db.clock d)).
Proof.
  intros Hcats Hu u c.
  unfold seed, insert_user_on_conflict_do_nothing. fold u in Hu |- *. rewrite Hu.
  assert (Hrows : forall X : Db.store,
            Db.categories (Db.rows X) = Db.categories (Db.rows d) ->
            Db.categories_id_seq (Db.seqs X) = c ->
            insert_categories ["Makanan"; "Minuman"; "Pakaian"] X =
              inr (Db.mkStore
                     (Db.mkTables (Db.users (Db.rows X))
                        (<[c + 3 := Category.mk (c + 3) "Pakaian"]>
                           (<[c + 2 := Category.mk (c + 2) "Minuman"]>
                              (<[c + 1 := Category.mk (c + 1) "Makanan"]>
                                 (Db.categories (Db.rows d)))))
                        (Db.products (Db.rows X)) (Db.orders (Db.rows X))
                        (Db.orderItems (Db.rows X)))
                     (Db.mkSequences (Db.users_id_seq (Db.seqs X)) (c + 3)
                        (Db.products_id_seq (Db.seqs X)) (Db.orders_id_seq (Db.seqs X))
                        (Db.order_items_id_seq (Db.seqs X)))
                     (Db.clock X))).
  { intros X HX Hc. unfold insert_categories. rewrite Hc.
    cbn [category_rows forallb Category.id]. rewrite HX.
    rewrite !bool_decide_eq_true_2 by (apply Hcats; unfold c; lia).
    cbn [andb map Db.apply_writes fold_left Db.apply_write Category.id length].
    rewrite HX.
    replace (c + 1 + 1) with (c + 2) by lia.
    replace (c + 2 + 1) with (c + 3) by lia.
    replace (c + Z.of_nat 3) with (c + 3) by lia.
    done. }
  destruct (Db.first_user "admin" _); by rewrite Hrows.
Qed.

(** X17. The seed script is not repeatable for the categories. On a
    store without a user 'admin', with the sequences of users and
    categories ahead of their ids, [seed()] adds the user 'admin' with
    the hash of 'admin123' and the role 'admin', and the three
    categories Makanan, Minuman, Pakaian. Run a second time it leaves
    the users as they are ([onConflictDoNothing]) and adds the three
    categories once more under new ids. *)
Theorem seed_twice `{Bcrypt} salt salt' d :
  (forall i u, Db.users (Db.rows d) !! i = Some u -> User.username u <> "admin") ->
  Auth.users_ahead d ->
  categories_ahead d ->
  let u := Db.users_id_seq (Db.seqs d) in
  let c := Db.categories_id_seq (Db.seqs d) in
  exists d1 d2,
    seed salt d = inr d1 /\
    seed salt' d1 = inr d2 /\
    Db.users (Db.rows d1) =
      <[u + 1 := User.mk (u + 1) "admin" (hashSync "admin123" salt) (Some "admin")]>
        (Db.users (Db.rows d)) /\
    Db.users (Db.rows d2) = Db.users (Db.rows d1) /\
    Db.categories (Db.rows d1) =
      <[c + 3 := Category.mk (c + 3) "Pakaian"]>
        (<[c + 2 := Category.mk (c + 2) "Minuman"]>
           (<[c + 1 := Category.mk (c + 1) "Makanan"]> (Db.categories (Db.rows d)))) /\
    Db.categories (Db.rows d2) =
      <[c + 6 := Category.mk (c + 6) "Pakaian"]>
        (<[c + 5 := Category.mk (c + 5) "Minuman"]>
           (<[c + 4 := Category.mk (c + 4) "Makanan"]> (Db.categories (Db.rows d1)))).
Proof.
  intros Hfresh Husers Hcats u c.
  assert (Hu0 : Db.users (Db.rows d) !! (Db.users_id_seq (Db.seqs d) + 1) = None)
    by (apply Husers; lia).
  assert (H1 := seed_run salt d Hcats Hu0). cbn zeta in H1.
  fold u c in H1.
  apply AuthFacts.first_user_None in Hfresh. rewrite Hfresh in H1.
  eexists _, _. split; [exact H1|].
  match type of H1 with _ = inr ?X => set (d1 := X) in * end.
  assert (Hcats1 : categories_ahead d1).
  { intros k Hk. cbn in Hk |- *. rewrite !lookup_insert_ne by lia.
    apply Hcats. fold c. lia. }
  assert (Hu1 : Db.users (Db.rows d1) !! (Db.users_id_seq (Db.seqs d1) + 1) = None).
  { cbn. rewrite lookup_insert_ne by lia. apply Husers. fold u. lia. }
  assert (H2 := seed_run salt' d1 Hcats1 Hu1). cbn zeta in H2.
  assert (Hadmin : exists a, Db.first_user "admin" (Db.users (Db.rows d1)) = Some a).
  { eexists. cbn [d1 Db.rows Db.users].
    apply (AuthFacts.first_user_insert_fresh _ (u + 1)
             (User.mk (u + 1) "admin" (hashSync "admin123" salt) (Some "admin")));
      [apply Husers; unfold u; lia|exact Hfresh]. }
  destruct Hadmin as [a Ha]. rewrite Ha in H2.
  split; [exact H2|].
  cbn [d1 Db.rows Db.users Db.categories Db.seqs Db.categories_id_seq].
  replace (c + 3 + 1) with (c + 4) by lia.
  replace (c + 3 + 2) with (c + 5) by lia.
  replace (c + 3 + 3) with (c + 6) by lia.
  done.
Qed.

Lemma seed_twice_witness :
  exists d1 d2,
    @seed Toy.bcrypt "$2a$10$" (Db.mkStore (Db.mkTables ∅ ∅ ∅ ∅ ∅)
                                            (Db.mkSequences 0 0 0 0 0) 0) = inr d1 /\
    @seed Toy.bcrypt "$2a$10$" d1 = inr d2 /\
    size (Db.users (Db.rows d2)) = 1%nat /\
    size (Db.categories (Db.rows d2)) = 6%nat.
Proof.
  destruct (@seed_twice Toy.bcrypt "$2a$10$" "$2a$10$"
              (Db.mkStore (Db.mkTables ∅ ∅ ∅ ∅ ∅) (Db.mkSequences 0 0 0 0 0) 0))
    as (d1 & d2 & H1 & H2 & Hu1 & Hu2 & Hc1 & Hc2).
  - intros i u Hi. cbn in Hi. by rewrite lookup_empty in Hi.
  - intros id _. cbn. apply lookup_empty.
  - intros id _. cbn. apply lookup_empty.
  - exists d1, d2. split; [exact H1|]. split; [exact H2|].
    rewrite Hu2, Hu1, Hc2, Hc1. split; reflexivity.
Defined.

End SeedFacts.

(* ===================================================================== *)
(** ** More about the checkout *)
(* ===================================================================== *)

Module CheckoutMore.

Import Tx TxFacts Checkout CheckoutFacts CheckoutWords.

(** *** When a request goes through *)

Lemma passes_after (ps : gmap Z Product.row) it0 p0 pre it :
  ps !! productId it0 = Some p0 ->
  passes (alter (Product.set_stock (Product.stock p0 - quantity it0)) (productId it0) ps)
         pre it <->
  passes ps (it0 :: pre) it.
Proof.
  intros Hp0. unfold passes. cbn [ordered].
  destruct (decide (productId it0 = productId it)) as [Heq|Hne].
  - rewrite <- Heq, lookup_alter_eq, Hp0. cbn.
    rewrite bool_decide_eq_true_2 by done. split.
    + intros (p & [= <-] & Hq). exists p0. split; [done|]. cbn in Hq. lia.
    + intros (p & [= <-] & Hq). eexists. split; [done|]. cbn. lia.
  - rewrite lookup_alter_ne by done. rewrite bool_decide_eq_false_2 by done.
    split; intros (p & Hp & Hq); exists p; (split; [done|lia]).
Qed.

Lemma first_short_None (ps : gmap Z Product.row) its :
  first_short ps its = None <->
  forall pre it post, its = pre ++ it :: post -> passes ps pre it.
Proof.
  revert ps. induction its as [|it0 its IH]; intros ps.
  - split; [|done]. intros _ pre it post H. by destruct pre.
  - cbn [first_short]. split.
    + intros Hnone pre it post Hsplit.
      destruct (ps !! productId it0) as [p0|] eqn:Hp0; [|done].
      destruct (Product.stock p0 <? quantity it0) eqn:Hlt; [done|].
      apply Z.ltb_ge in Hlt.
      destruct pre as [|it1 pre]; simplify_eq/=.
      * exists p0. split; [done|cbn; lia].
      * apply (passes_after ps it1 p0 pre it Hp0).
        by eapply (proj1 (IH _) Hnone).
    + intros Hall.
      destruct (Hall [] it0 its eq_refl) as (p0 & Hp0 & Hq0). cbn in Hq0.
      rewrite Hp0.
      assert ((Product.stock p0 <? quantity it0) = false) as -> by (apply Z.ltb_ge; lia).
      apply IH. intros pre it post ->.
      apply (passes_after ps it0 p0 pre it Hp0).
      by apply (Hall (it0 :: pre) it post).
Qed.

Lemma first_short_Some (ps : gmap Z Product.row) its it :
  first_short ps its = Some it ->
  exists pre post, its = pre ++ it :: post /\
                   first_short ps pre = None /\ ~ passes ps pre it.
Proof.
  revert ps. induction its as [|it0 its IH]; intros ps; [done|].
  cbn [first_short].
  destruct (ps !! productId it0) as [p0|] eqn:Hp0.
  - destruct (Product.stock p0 <? quantity it0) eqn:Hlt.
    + intros [= <-]. exists [], its. repeat split.
      intros (p & Hp & Hq). cbn in Hq. apply Z.ltb_lt in Hlt.
      rewrite Hp0 in Hp. injection Hp as <-. lia.
    + intros Hs. destruct (IH _ Hs) as (pre & post & -> & Hpre & Hnot).
      exists (it0 :: pre), post. repeat split.
      * cbn [first_short]. by rewrite Hp0, Hlt.
      * intros Hp. apply Hnot. by apply (passes_after ps it0 p0 pre it Hp0).
  - intros [= <-]. exists [], its. repeat split.
    intros (p & Hp & _). by rewrite Hp0 in Hp.
Qed.

(** X1. When a request goes through. With the sequences ahead of the
    ids and a store that refuses nothing, [POST /api/orders] answers
    with success exactly when every item, in the caller's order, finds
    its product with at least the units it asks for left after the
    units that the items before it ask of the same product. Otherwise
    it answers 400 with the stock error of the first item that does
    not: all items before that one pass their checks. *)
Theorem checkout_goes_through_exactly_when v req d :
  sequences_ahead d ->
  let ps := Db.products (Db.rows d) in
  let r := post_api_orders v req d no_faults in
  ((exists total, answer r = Json200 (Db.orders_id_seq (Db.seqs d) + 1) total) <->
   (forall pre it post, items req = pre ++ it :: post -> passes ps pre it)) /\
  (forall m, answer r = Json400 m ->
     exists pre it post,
       items req = pre ++ it :: post /\
       (forall pre' it' post', pre = pre' ++ it' :: post' -> passes ps pre' it') /\
       ~ passes ps pre it /\
       m = stock_message v (ps !! productId it)).
Proof.
  intros Hd ps r. unfold r.
  rewrite (post_api_orders_undisturbed v req d Hd). unfold undisturbed_answer.
  fold ps. destruct (first_short ps (items req)) as [it|] eqn:Hs.
  - destruct (first_short_Some _ _ _ Hs) as (pre & post & Hsplit & Hpre & Hnot).
    split.
    + split; [by intros [total ?]|].
      intros Hall. destruct Hnot. by apply (Hall pre it post).
    + intros m [= <-]. exists pre, it, post. repeat split; try done.
      by apply first_short_None.
  - split; [|done]. split; [|by eexists].
    intros _. by apply first_short_None.
Qed.

Lemma shop_sequences_ahead : sequences_ahead Shop.shop.
Proof. split; intros id _; reflexivity. Qed.

Lemma checkout_goes_through_exactly_when_witness :
  exists pre it post,
    items (Shop.buy [(1, 2); (2, 1); (1, 4)]) = pre ++ it :: post /\
    ~ passes (Db.products (Db.rows Shop.shop)) pre it /\
    "Stok Beras kurang!"
      = stock_message First (Db.products (Db.rows Shop.shop) !! productId it).
Proof.
  destruct (checkout_goes_through_exactly_when First (Shop.buy [(1, 2); (2, 1); (1, 4)])
              Shop.shop shop_sequences_ahead) as [_ Hrefused].
  destruct (Hrefused "Stok Beras kurang!" eq_refl)
    as (pre & it & post & Hsplit & _ & Hnot & Hm).
  by exists pre, it, post.
Defined.

(** *** The order header *)



(** *** The statements of a checkout *)

(** X3. The statements of a checkout that goes through. A call that
    answers with success has sent the store, in this order and nothing
    else: the insert of the order with the customer, the address, the
    total "0" and the status 'pending'; then for each item the lookup of
    its product, the insert of the order line with the order id, the
    product id, the quantity and the price of the product, and the
    update of the stock of that product to the stock found less the
    quantity; then the update of the total of the order with the text
    of the total returned. These are [2 + 3 n] statements for [n]
    items, all inside the one transaction. *)
Theorem successful_checkout_statements v req d f oid total :
  answer (post_api_orders v req d f) = Json200 oid total ->
  map event_statement (issued (post_api_orders v req d f)) =
    statements_of_checkout req (Db.products (Db.rows d)) oid total /\
  length (issued (post_api_orders v req d f)) = (2 + 3 * length (items req))%nat.
Proof.
  intros H. destruct (post_api_orders_store _ _ _ _ _ _ H) as [Hv _].
  rewrite post_api_orders_issued. by apply checkout_statements.
Qed.

Lemma successful_checkout_statements_witness :
  map event_statement
      (issued (post_api_orders Perbaikan (Shop.buy [(1, 2); (1, 1)]) Shop.shop no_faults))
    = [Statement (Db.InsertOrder "Ani" "Jl. Melati 1" (Js.TextDecimal 0 0) "pending");
       Statement (Db.FindFirstProduct 1);
       Statement (Db.InsertOrderItem 1 1 2 (Js.Cents 1000));
       Statement (Db.UpdateProductStock 1 3);
       Statement (Db.FindFirstProduct 1);
       Statement (Db.InsertOrderItem 1 1 1 (Js.Cents 1000));
       Statement (Db.UpdateProductStock 1 2);
       Statement (Db.UpdateOrderTotalAmount 1 (Js.TextDecimal 3 1))].
Proof.
  destruct (successful_checkout_statements Perbaikan (Shop.buy [(1, 2); (1, 1)]) Shop.shop
              no_faults 1 (Js.of_Z 30) eq_refl) as [-> _].
  vm_compute. reflexivity.
Defined.

End CheckoutMore.
